(** * Calorie tracker: a shallow embedding of [app.py] and its properties

    The application keeps its data in four SQLite tables ([foods], [logs],
    [users], [settings]) and derives day totals, a per-meal breakdown, a
    goal progress bar and a gap-filled history series from them.

    Modelling choices, all of them visible in the definitions below:
    - a table is the list of its rows in rowid order, together with the
      AUTOINCREMENT counter of the table;
    - a REAL column and a Python float are rationals ([Q]) wherever only
      the formula or the structure of a result is stated; the scaling of
      [calc_from_food_row] is also given on binary64 floats
      ([calc_from_food_row_binary64]), where its rounding is stated;
    - a calendar date is its proleptic ordinal ([Z], what [date.toordinal]
      returns); the text [isoformat] stores is an injective, order-preserving
      rendering of it, so text comparison, grouping and lookup on
      [entry_date] are comparison, grouping and lookup on ordinals. The
      calendar is Python's: ordinals 1 (0001-01-01) to 3652059 (9999-12-31),
      and date arithmetic that leaves it raises [OverflowError]; the range
      of pandas is that of its nanosecond timestamps;
    - the aggregate [SUM] of the database is a function the history is
      parametrised by;
    - text is an ASCII [string]; [str.lower] maps A..Z to a..z;
    - [date.today()] and [datetime.now()] are explicit arguments;
    - an uncaught Python exception is the [Raise] branch of [result];
    - the bcrypt library is a pair of functions the account operations are
      parametrised by, and the salt it draws is an explicit argument. *)

From Stdlib Require Import List Bool ZArith QArith String Ascii Lia.
From Stdlib Require Import Sorted Permutation Qminmax Lqa.
From Stdlib Require Import PrimFloat FloatOps SpecFloat.
From Stdlib Require Uint63 FloatAxioms.
Import ListNotations.

Local Open Scope Z_scope.
Local Open Scope list_scope.

(** ** Text *)

Definition lower_ascii (c : ascii) : ascii :=
  let n := N_of_ascii c in
  if ((65 <=? n) && (n <=? 90))%N then ascii_of_N (n + 32) else c.

(** [str.lower] on ASCII text. *)
Fixpoint lower (s : string) : string :=
  match s with
  | EmptyString => EmptyString
  | String c s' => String (lower_ascii c) (lower s')
  end.

(** ** Ordering rows: [ORDER BY] and the sorted keys of [groupby] *)

Section Sorting.
Context {A : Type} (leb : A -> A -> bool).

Fixpoint insert_sorted (x : A) (l : list A) : list A :=
  match l with
  | [] => [x]
  | y :: l' => if leb x y then x :: l else y :: insert_sorted x l'
  end.

(** A stable insertion sort: rows with equal keys keep their order. *)
Definition order_by (l : list A) : list A := fold_right insert_sorted [] l.
End Sorting.

(** ** Numbers *)

(** The sum of a column, accumulated from zero row by row, with the
    additions taken exactly. *)
Definition SUM (xs : list Q) : Q := fold_left Qplus xs 0%Q.

Definition Qltb (a b : Q) : bool := negb (Qle_bool b a).

(** Python's [max(a, b)] returns [a] unless [b > a]. *)
Definition py_max (a b : Q) : Q := if Qltb a b then b else a.

(** Python's [min(a, b)] returns [a] unless [b < a]. *)
Definition py_min (a b : Q) : Q := if Qltb b a then b else a.

(** ** Exceptions *)

Inductive exn : Type :=
| IndexError
| ZeroDivisionError
| OverflowError
| ValueError
| OutOfBoundsDatetime.

Inductive result (A : Type) : Type :=
| Ok (a : A)
| Raise (e : exn).
Arguments Ok {A} a.
Arguments Raise {A} e.

(** Python's true division [x / y]. *)
Definition py_div (x y : Q) : result Q :=
  if Qeq_bool y 0 then Raise ZeroDivisionError else Ok (x / y)%Q.

(** ** The database *)

Definition date := Z.

(** Table [foods]: [UNIQUE(user_id, name)], [id] is AUTOINCREMENT. *)
Module Foods.
Record row : Type := mk {
  id : Z;
  user_id : Z;
  name : string;
  kcal_per_100g : Q;
  protein_per_100g : Q;
  carbs_per_100g : Q;
  fat_per_100g : Q
}.
End Foods.

(** Table [logs]: [id] is AUTOINCREMENT. *)
Module Logs.
Record row : Type := mk {
  id : Z;
  user_id : Z;
  entry_date : date;
  time : string;
  food : string;
  weight_g : Q;
  kcal : Q;
  protein : Q;
  carbs : Q;
  fat : Q;
  meal : string
}.
End Logs.

(** [foods_seq] and [logs_seq] are the [sqlite_sequence] entries of the two
    tables: the largest rowid handed out so far. *)
Record db : Type := mk_db {
  foods : list Foods.row;
  foods_seq : Z;
  logs : list Logs.row;
  logs_seq : Z
}.

(** The state [init_db] leaves behind on a fresh file. *)
Definition init_db : db := mk_db [] 0 [] 0.

(** ** Food catalog *)

(** A row of the data frame [get_foods] returns. *)
Module FoodsDF.
Record row : Type := mk {
  name : string;
  kcal_per_100g : Q;
  protein_per_100g : Q;
  carbs_per_100g : Q;
  fat_per_100g : Q
}.
End FoodsDF.

Definition of_user (user_id : Z) (r : Foods.row) : bool :=
  Foods.user_id r =? user_id.

Definition named (name : string) (r : Foods.row) : bool :=
  (Foods.name r =? name)%string.

(** The columns of the [UNIQUE(user_id, name)] constraint. *)
Definition food_key (user_id : Z) (name : string) (r : Foods.row) : bool :=
  of_user user_id r && named name r.

(** [INSERT OR REPLACE INTO foods ...] with the lower-cased name: a row that
    holds the same [(user_id, name)] is deleted, then the new row is
    appended under a fresh rowid. *)
Definition add_food (d : db) (user_id : Z) (name : string)
    (kcal protein carbs fat : Q) : db :=
  let name' := lower name in
  let id' := foods_seq d + 1 in
  mk_db
    (filter (fun r => negb (food_key user_id name' r)) (foods d)
       ++ [Foods.mk id' user_id name' kcal protein carbs fat])
    id'
    (logs d)
    (logs_seq d).

Definition foods_columns (r : Foods.row) : FoodsDF.row :=
  FoodsDF.mk (Foods.name r) (Foods.kcal_per_100g r) (Foods.protein_per_100g r)
    (Foods.carbs_per_100g r) (Foods.fat_per_100g r).

Definition name_leb (a b : Foods.row) : bool :=
  String.leb (Foods.name a) (Foods.name b).

(** [SELECT name, ... FROM foods WHERE user_id = ? ORDER BY name]. *)
Definition get_foods (d : db) (user_id : Z) : list FoodsDF.row :=
  map foods_columns
    (order_by name_leb (filter (of_user user_id) (foods d))).

Definition sample : list (string * Q * Q * Q * Q) :=
  [ ("rice"%string,    130%Q, 2.7%Q,  28.0%Q, 0.3%Q);
    ("roti"%string,    120%Q, 3.6%Q,  20.0%Q, 1.0%Q);
    ("chicken"%string, 165%Q, 31.0%Q, 0.0%Q,  3.6%Q);
    ("egg"%string,     155%Q, 13.0%Q, 1.1%Q,  11.0%Q);
    ("milk"%string,    60%Q,  3.2%Q,  5.0%Q,  3.3%Q);
    ("apple"%string,   52%Q,  0.3%Q,  14.0%Q, 0.2%Q);
    ("banana"%string,  89%Q,  1.1%Q,  23.0%Q, 0.3%Q);
    ("paneer"%string,  265%Q, 18.0%Q, 1.2%Q,  20.8%Q);
    ("dal"%string,     116%Q, 9.0%Q,  20.0%Q, 1.0%Q);
    ("oats"%string,    389%Q, 17.0%Q, 66.0%Q, 7.0%Q) ].

(** The [for] loop of [seed_example_foods_for_user]. *)
Definition seed_example_foods_for_user (d : db) (user_id : Z) : db :=
  fold_left
    (fun acc '(name, kcal, protein, carbs, fat) =>
       add_food acc user_id name kcal protein carbs fat)
    sample d.

(** Lines 333-336: seed when the listing is empty, then the listing in use. *)
Definition ensure_sample_foods (d : db) (user_id : Z) : db :=
  match get_foods d user_id with
  | [] => seed_example_foods_for_user d user_id
  | _ :: _ => d
  end.

(** ** Entry log *)

(** [INSERT INTO logs ...]: the food name is lower-cased, every other value
    is stored as passed. Nothing is looked up and nothing is checked. *)
Definition log_food (d : db) (user_id : Z) (entry_date : date)
    (time_str food : string) (weight_g kcal protein carbs fat : Q)
    (meal : string) : db :=
  let id' := logs_seq d + 1 in
  mk_db
    (foods d)
    (foods_seq d)
    (logs d ++ [Logs.mk id' user_id entry_date time_str (lower food) weight_g
                  kcal protein carbs fat meal])
    id'.

(** A row of the data frame [get_logs_for_date] returns. *)
Module LogsDF.
Record row : Type := mk {
  id : Z;
  time : string;
  food : string;
  weight_g : Q;
  kcal : Q;
  protein : Q;
  carbs : Q;
  fat : Q;
  meal : string
}.
End LogsDF.

Definition logs_columns (r : Logs.row) : LogsDF.row :=
  LogsDF.mk (Logs.id r) (Logs.time r) (Logs.food r) (Logs.weight_g r)
    (Logs.kcal r) (Logs.protein r) (Logs.carbs r) (Logs.fat r) (Logs.meal r).

Definition id_leb (a b : Logs.row) : bool := Logs.id a <=? Logs.id b.

(** [SELECT id, time, ... FROM logs WHERE user_id = ? AND entry_date = ?
    ORDER BY id]. *)
Definition get_logs_for_date (d : db) (user_id : Z) (entry_date : date)
    : list LogsDF.row :=
  map logs_columns
    (order_by id_leb
       (filter (fun r => (Logs.user_id r =? user_id)
                         && (Logs.entry_date r =? entry_date))
          (logs d))).

(** [DELETE FROM logs WHERE user_id = ? AND id = ?]. *)
Definition delete_log (d : db) (user_id log_id : Z) : db :=
  mk_db
    (foods d)
    (foods_seq d)
    (filter (fun r => negb ((Logs.user_id r =? user_id)
                            && (Logs.id r =? log_id)))
       (logs d))
    (logs_seq d).

(** ** Utility calculations *)

(** Lines 226-231 as a formula: the four channels with the values read as
    the rationals they are and the arithmetic taken exactly. *)
Definition calc_from_food_row (row : FoodsDF.row) (weight_g : Q)
    : Q * Q * Q * Q :=
  let kcal := (FoodsDF.kcal_per_100g row * weight_g / 100)%Q in
  let protein := (FoodsDF.protein_per_100g row * weight_g / 100)%Q in
  let carbs := (FoodsDF.carbs_per_100g row * weight_g / 100)%Q in
  let fat := (FoodsDF.fat_per_100g row * weight_g / 100)%Q in
  (kcal, protein, carbs, fat).

(** The same function on the values Python holds: the REAL columns of the
    row and the weight of the number widget are binary64 floats, multiplied
    and divided as such, left to right. *)
Module FoodsF64.
Record row : Type := mk {
  name : string;
  kcal_per_100g : float;
  protein_per_100g : float;
  carbs_per_100g : float;
  fat_per_100g : float
}.
End FoodsF64.


(** ** The "Add entry" handler (lines 367-373)

    [foods_df[foods_df['name'] == food_choice].iloc[0]] raises [IndexError]
    when no row of the listing has that name. *)
Definition add_entry (today : date) (now : string) (d : db) (user_id : Z)
    (food_choice : string) (weight : Q) (meal : string) : result db :=
  let foods_df := get_foods d user_id in
  match filter (fun r => (FoodsDF.name r =? food_choice)%string) foods_df with
  | [] => Raise IndexError
  | row :: _ =>
      let '(kcal, protein, carbs, fat) := calc_from_food_row row weight in
      Ok (log_food d user_id today now food_choice weight
            kcal protein carbs fat meal)
  end.

(** ** Today's summary (lines 410-431) *)

Definition remaining (daily_goal total_kcal : Q) : Q :=
  (daily_goal - total_kcal)%Q.

(** The argument of [st.progress]:
    [min(max(total_kcal / max(daily_goal, 1), 0.0), 1.0)]. *)
Definition progress (daily_goal total_kcal : Q) : result Q :=
  match py_div total_kcal (py_max daily_goal 1) with
  | Ok q => Ok (py_min (py_max q 0) 1)
  | Raise e => Raise e
  end.

(** A row of [meal_summary]. *)
Module MealDF.
Record row : Type := mk {
  meal : string;
  kcal : Q;
  protein : Q;
  carbs : Q;
  fat : Q
}.
End MealDF.

(** [logs_df.groupby('meal').agg({... 'sum'}).reset_index()]: one row per
    distinct key, keys ascending, each column summed over the key's rows. *)
Definition groupby_meal_sum (logs_df : list LogsDF.row) : list MealDF.row :=
  map (fun m =>
         let g := filter (fun r => (LogsDF.meal r =? m)%string) logs_df in
         MealDF.mk m (SUM (map LogsDF.kcal g)) (SUM (map LogsDF.protein g))
           (SUM (map LogsDF.carbs g)) (SUM (map LogsDF.fat g)))
    (order_by String.leb (nodup string_dec (map LogsDF.meal logs_df))).

(** The breakdown is computed only [if not logs_df.empty]. *)
Definition meal_summary (logs_df : list LogsDF.row)
    : option (list MealDF.row) :=
  match logs_df with
  | [] => None
  | _ :: _ => Some (groupby_meal_sum logs_df)
  end.

(** ** History *)

(** A row of the data frame [get_history] returns. *)
Module HistoryDF.
Record row : Type := mk {
  entry_date : date;
  kcal : Q;
  protein : Q;
  carbs : Q;
  fat : Q
}.
End HistoryDF.

(** The labels of [pd.date_range(start=start, end=today)]: every day from
    [start] to [today], both included; none when [start] is after
    [today]. *)
Definition date_range (start today : date) : list date :=
  map (fun i => start + Z.of_nat i) (seq 0 (Z.to_nat (today - start + 1))).

(** [SELECT entry_date, SUM(kcal), ... FROM logs WHERE user_id = ? AND
    entry_date >= ? GROUP BY entry_date ORDER BY entry_date]. The query has
    no upper bound on [entry_date]. [sql_sum] is the aggregate [SUM] of the
    database over the REAL values of one group, a binary64 sum whose
    rounding is the database's; a group is never empty. *)
Definition history_query (sql_sum : list Q -> Q) (d : db) (user_id : Z)
    (start : date) : list HistoryDF.row :=
  let rows := filter (fun r => (Logs.user_id r =? user_id)
                               && (start <=? Logs.entry_date r))
                (logs d) in
  map (fun k =>
         let g := filter (fun r => Logs.entry_date r =? k) rows in
         HistoryDF.mk k (sql_sum (map Logs.kcal g))
           (sql_sum (map Logs.protein g)) (sql_sum (map Logs.carbs g))
           (sql_sum (map Logs.fat g)))
    (order_by Z.leb (nodup Z.eq_dec (map Logs.entry_date rows))).

(** [df.set_index('entry_date').reindex(idx, fill_value=0).reset_index()]:
    one row per label of [idx], in the order of [idx]; the row of [df] with
    that label when there is one, zeros otherwise. Rows of [df] whose label
    is not in [idx] are dropped. *)
Definition reindex (idx : list date) (df : list HistoryDF.row)
    : list HistoryDF.row :=
  map (fun k =>
         match find (fun r => HistoryDF.entry_date r =? k) df with
         | Some r => r
         | None => HistoryDF.mk k 0 0 0 0
         end)
    idx.

(** [date.min] and [date.max] as ordinals. *)
Definition date_min : date := 1.
Definition date_max : date := 3652059.

(** [timedelta(days=n)]: the magnitude is at most 999999999 days. *)
Definition timedelta (days : Z) : result Z :=
  if Z.abs days <=? 999999999 then Ok days else Raise OverflowError.

(** [d - delta] on a date: 'date value out of range' when the result is
    not a day of the calendar. *)
Definition date_sub (d : date) (delta : Z) : result date :=
  let r := d - delta in
  if (date_min <=? r) && (r <=? date_max) then Ok r else Raise OverflowError.

(** Line 260: [start = today - timedelta(days=days-1)]. *)
Definition window_start (today : date) (days : Z) : result date :=
  match timedelta (days - 1) with
  | Ok delta => date_sub today delta
  | Raise e => Raise e
  end.

(** The days a nanosecond [pd.Timestamp] holds at midnight: 1677-09-22 to
    2262-04-11, as ordinals. *)
Definition timestamp_min : date := 612412.
Definition timestamp_max : date := 825914.

(** [pd.date_range(start=start, end=today)] as pandas evaluates it (through
    version 2): both ends become nanosecond timestamps, or the call raises
    [OutOfBoundsDatetime]. *)
Definition pd_date_range (start today : date) : result (list date) :=
  if (timestamp_min <=? start) && (start <=? timestamp_max)
     && (timestamp_min <=? today) && (today <=? timestamp_max)
  then Ok (date_range start today)
  else Raise OutOfBoundsDatetime.

(** Lines 261-275: the query, then the frame over [start .. today]. *)
Definition history_frame (sql_sum : list Q -> Q) (d : db) (user_id : Z)
    (start today : date) : result (list HistoryDF.row) :=
  let df := history_query sql_sum d user_id start in
  match df with
  | [] =>
      match pd_date_range start today with
      | Ok idx => Ok (map (fun k => HistoryDF.mk k 0 0 0 0) idx)
      | Raise e => Raise e
      end
  | _ :: _ =>
      match pd_date_range start today with
      | Ok idx => Ok (reindex idx df)
      | Raise e => Raise e
      end
  end.

Definition get_history (sql_sum : list Q -> Q) (today : date) (d : db)
    (user_id : Z) (days : Z) : result (list HistoryDF.row) :=
  match window_start today days with
  | Ok start => history_frame sql_sum d user_id start today
  | Raise e => Raise e
  end.

(** ** The write operations as one alphabet *)

Inductive action : Type :=
| AddFood (user_id : Z) (name : string) (kcal protein carbs fat : Q)
| SeedFoods (user_id : Z)
| LogFood (user_id : Z) (entry_date : date) (time_str food : string)
    (weight_g kcal protein carbs fat : Q) (meal : string)
| DeleteLog (user_id log_id : Z).

Definition run (a : action) (d : db) : db :=
  match a with
  | AddFood u n k p c f => add_food d u n k p c f
  | SeedFoods u => seed_example_foods_for_user d u
  | LogFood u e t fd w k p c f m => log_food d u e t fd w k p c f m
  | DeleteLog u i => delete_log d u i
  end.

(** ** Vocabulary of the statements *)

(** The order of the listing, on the columns the listing keeps. *)
Definition df_name_leb (a b : FoodsDF.row) : bool :=
  String.leb (FoodsDF.name a) (FoodsDF.name b).

(** The default set as the listing shows it. *)
Definition sample_listing : list FoodsDF.row :=
  [ FoodsDF.mk "apple"   52  0.3  14.0 0.2;
    FoodsDF.mk "banana"  89  1.1  23.0 0.3;
    FoodsDF.mk "chicken" 165 31.0 0.0  3.6;
    FoodsDF.mk "dal"     116 9.0  20.0 1.0;
    FoodsDF.mk "egg"     155 13.0 1.1  11.0;
    FoodsDF.mk "milk"    60  3.2  5.0  3.3;
    FoodsDF.mk "oats"    389 17.0 66.0 7.0;
    FoodsDF.mk "paneer"  265 18.0 1.2  20.8;
    FoodsDF.mk "rice"    130 2.7  28.0 0.3;
    FoodsDF.mk "roti"    120 3.6  20.0 1.0 ].

Definition egg : FoodsDF.row := FoodsDF.mk "egg" 155 13.0 1.1 11.0.









(** The account's entries of one date, in table order, and the row the
    history is expected to hold for that date: what the aggregate makes of
    them, zeros when there are none. *)
Definition entries_on (d : db) (user_id : Z) (day : date) : list Logs.row :=
  filter (fun r => (Logs.user_id r =? user_id) && (Logs.entry_date r =? day))
    (logs d).

Definition day_row (sql_sum : list Q -> Q) (d : db) (user_id : Z)
    (day : date) : HistoryDF.row :=
  match entries_on d user_id day with
  | [] => HistoryDF.mk day 0 0 0 0
  | e :: g =>
      HistoryDF.mk day (sql_sum (map Logs.kcal (e :: g)))
        (sql_sum (map Logs.protein (e :: g)))
        (sql_sum (map Logs.carbs (e :: g)))
        (sql_sum (map Logs.fat (e :: g)))
  end.

(** The days of the frame [get_history] builds: the window of line 260,
    then the range of pandas. *)
Definition history_days (today : date) (days : Z) : result (list date) :=
  match window_start today days with
  | Ok start => pd_date_range start today
  | Raise e => Raise e
  end.

(** The entries that are not dated after [today]. *)
Definition not_after (today : date) (l : list Logs.row) : list Logs.row :=
  filter (fun r => Logs.entry_date r <=? today) l.

(** ** Sample states *)

(** Account 1 right after its first login on a fresh database. *)
Definition seeded_db : db := ensure_sample_foods init_db 1.

(** A day (ordinal 738000) with two breakfast entries of 100 and 50 kcal. *)
Definition breakfast_day : db :=
  log_food
    (log_food seeded_db 1 738000 "08:00:00" "oats" 25 100 4 16 2 "Breakfast")
    1 738000 "08:30:00" "milk" 83 50 3 4 3 "Breakfast".

(** The same state with one more entry, dated three days later. *)
Definition breakfast_day_and_later : db :=
  log_food breakfast_day 1 738003 "13:00:00" "rice" 200 260 5.4 56 0.6 "Lunch".

(** One stored entry of account 1, and the state after logging it on a
    fresh database. *)
Definition egg_entry : Logs.row :=
  Logs.mk 1 1 738000 "08:00:00" "egg" 50 77.5 6.5 0.55 5.5 "Breakfast".

Definition one_entry_db : db :=
  log_food init_db 1 738000 "08:00:00" "egg" 50 77.5 6.5 0.55 5.5 "Breakfast".

(** ** Reachable states *)

(** The states the application can be in: it starts from [init_db] and
    every write is one of the operations of [run]. *)
Inductive reachable : db -> Prop :=
| reachable_init : reachable init_db
| reachable_run (a : action) (d : db) : reachable d -> reachable (run a d).

(** Entries are stored under strictly ascending identifiers, none above the
    counter of the table. *)
Definition ascending_ids (l : list Logs.row) : Prop :=
  StronglySorted (fun a b => Logs.id a < Logs.id b) l.

Definition logs_wf (d : db) : Prop :=
  ascending_ids (logs d)
  /\ Forall (fun e => Logs.id e <= logs_seq d) (logs d).

(** The [UNIQUE(user_id, name)] constraint, and names in lower case. *)
Definition foods_wf (d : db) : Prop :=
  (forall u n, (List.length (filter (food_key u n) (foods d)) <= 1)%nat)
  /\ Forall (fun r => lower (Foods.name r) = Foods.name r) (foods d).

(** A sequence of write operations, first to last. *)
Definition runs (l : list action) (d : db) : db :=
  fold_left (fun acc a => run a acc) l d.

(** ** Forms of the page *)

(** [str.isspace] on ASCII text: tab to carriage return, the four
    separators 28..31, and the space. *)
Definition is_space (c : ascii) : bool :=
  let n := N_of_ascii c in
  (((9 <=? n) && (n <=? 13)) || ((28 <=? n) && (n <=? 32)))%N.

Fixpoint lstrip (s : string) : string :=
  match s with
  | EmptyString => EmptyString
  | String c s' => if is_space c then lstrip s' else s
  end.

Fixpoint rstrip (s : string) : string :=
  match s with
  | EmptyString => EmptyString
  | String c s' =>
      match rstrip s' with
      | EmptyString => if is_space c then EmptyString else String c EmptyString
      | String c' r => String c (String c' r)
      end
  end.

(** [str.strip()]. *)
Definition strip (s : string) : string := rstrip (lstrip s).

(** The "Add / Update food" form (lines 377-390). [None] stands for the
    branch that shows 'Food name cannot be empty' and writes nothing. *)
Definition add_food_form (d : db) (user_id : Z) (name : string)
    (kcal protein carbs fat : Q) : option db :=
  match strip name with
  | EmptyString => None
  | String _ _ =>
      Some (add_food d user_id (lower (strip name)) kcal protein carbs fat)
  end.

(** The "Delete entry" button (lines 396-407). The widgets are drawn only
    when today's listing has rows, and the button acts only on a positive
    identifier. *)
Definition delete_entry (today : date) (d : db) (user_id del_id : Z) : db :=
  match get_logs_for_date d user_id today with
  | [] => d
  | _ :: _ => if 0 <? del_id then delete_log d user_id del_id else d
  end.

(** The account a write operation is issued for. *)
Definition actor (a : action) : Z :=
  match a with
  | AddFood u _ _ _ _ _ => u
  | SeedFoods u => u
  | LogFood u _ _ _ _ _ _ _ _ _ => u
  | DeleteLog u _ => u
  end.

(** Identifiers of entries start at 1. *)
Definition positive_ids (d : db) : Prop :=
  0 <= logs_seq d /\ Forall (fun e => 1 <= Logs.id e) (logs d).

(** The text has only white space in it. *)
Fixpoint blank (s : string) : bool :=
  match s with
  | EmptyString => true
  | String c s' => is_space c && blank s'
  end.

(** The first and the last character of a text, if any. *)
Definition first_char (s : string) : option ascii :=
  match s with
  | EmptyString => None
  | String c _ => Some c
  end.

Fixpoint last_char (s : string) : option ascii :=
  match s with
  | EmptyString => None
  | String c EmptyString => Some c
  | String _ s' => last_char s'
  end.

(** No white space at either end. *)
Definition trimmed (s : string) : Prop :=
  (forall c, first_char s = Some c -> is_space c = false)
  /\ (forall c, last_char s = Some c -> is_space c = false).

(** ** Accounts and settings *)

(** Table [users]: [id] is AUTOINCREMENT, [username] is UNIQUE. *)
Module Users.
Record row : Type := mk {
  id : Z;
  username : string;
  password_hash : string
}.
End Users.

(** Table [settings]: [user_id] is the primary key. The table is only ever
    read by key, so the order of its rows cannot be observed. *)
Module Settings.
Record row : Type := mk {
  user_id : Z;
  daily_goal : Q;
  breakfast_target : Q;
  lunch_target : Q;
  dinner_target : Q;
  snack_target : Q
}.
End Settings.

(** The dictionary [get_settings] returns. *)
Module SettingsDict.
Record t : Type := mk {
  daily_goal : Q;
  breakfast_target : Q;
  lunch_target : Q;
  dinner_target : Q;
  snack_target : Q
}.
End SettingsDict.

(** The whole file: the two tables of [db] and the two tables above. *)
Record store : Type := mk_store {
  data : db;
  users : list Users.row;
  users_seq : Z;
  settings : list Settings.row
}.

Definition init_store : store := mk_store init_db [] 0 [].

Definition with_data (f : db -> db) (s : store) : store :=
  mk_store (f (data s)) (users s) (users_seq s) (settings s).

Definition has_username (username : string) (r : Users.row) : bool :=
  (Users.username r =? username)%string.

Definition has_settings (user_id : Z) (r : Settings.row) : bool :=
  Settings.user_id r =? user_id.

(** The column defaults of [settings]. *)
Definition default_settings (user_id : Z) : Settings.row :=
  Settings.mk user_id 2000 25 35 30 10.

(** [INSERT OR IGNORE INTO settings (user_id) VALUES (?)]. *)
Definition insert_or_ignore_settings (l : list Settings.row) (user_id : Z)
    : list Settings.row :=
  match find (has_settings user_id) l with
  | Some _ => l
  | None => l ++ [default_settings user_id]
  end.

Definition settings_dict (r : Settings.row) : SettingsDict.t :=
  SettingsDict.mk (Settings.daily_goal r) (Settings.breakfast_target r)
    (Settings.lunch_target r) (Settings.dinner_target r)
    (Settings.snack_target r).

(** [get_settings]: the row of the account, inserted with the defaults
    first when there is none. [None] stands for the [TypeError] that
    [row[0]] would raise if the second query found nothing. *)
Definition get_settings (s : store) (user_id : Z)
    : option (store * SettingsDict.t) :=
  match find (has_settings user_id) (settings s) with
  | Some row => Some (s, settings_dict row)
  | None =>
      let s' := mk_store (data s) (users s) (users_seq s)
                  (insert_or_ignore_settings (settings s) user_id) in
      match find (has_settings user_id) (settings s') with
      | Some row => Some (s', settings_dict row)
      | None => None
      end
  end.

(** [REPLACE INTO settings ...]: the row of the account, if any, is deleted
    and the new one inserted. *)
Definition update_settings (s : store) (user_id : Z)
    (daily_goal breakfast_target lunch_target dinner_target snack_target : Q)
    : store :=
  mk_store (data s) (users s) (users_seq s)
    (filter (fun r => negb (has_settings user_id r)) (settings s)
       ++ [Settings.mk user_id daily_goal breakfast_target lunch_target
             dinner_target snack_target]).

Section Accounts.

(** The two functions of the bcrypt library: [hashpw password salt], which
    answers the hash or raises ([None]: the [ValueError] of a password the
    library refuses, such as one longer than 72 bytes), and
    [checkpw password hash], which answers or raises ([None]). The salt
    that [gensalt] draws is an explicit argument. *)
Variable hashpw : string -> string -> option string.
Variable checkpw : string -> string -> option bool.

Definition hash_password (password salt : string) : result string :=
  match hashpw password salt with
  | Some pw_hash => Ok pw_hash
  | None => Raise ValueError
  end.

(** Any exception of [checkpw] counts as a failed check. *)
Definition check_password (password pw_hash : string) : bool :=
  match checkpw password pw_hash with
  | Some b => b
  | None => false
  end.

(** [create_user]: [Ok (_, false)] is the [IntegrityError] branch, in which
    the insert into [users] violated [UNIQUE(username)] and nothing was
    committed. The password is hashed first, inside the [try]; an exception
    of [hash_password] is no [IntegrityError], so it leaves the function,
    before anything is written. *)
Definition create_user (s : store) (username password salt : string)
    : result (store * bool) :=
  match hash_password password salt with
  | Raise e => Raise e
  | Ok pw_hash =>
      match find (has_username username) (users s) with
      | Some _ => Ok (s, false)
      | None =>
          let user_id := users_seq s + 1 in
          Ok (mk_store (data s)
                (users s ++ [Users.mk user_id username pw_hash])
                user_id
                (insert_or_ignore_settings (settings s) user_id),
              true)
      end
  end.

Definition authenticate (s : store) (username password : string)
    : option Z :=
  match find (has_username username) (users s) with
  | Some row =>
      if check_password password (Users.password_hash row)
      then Some (Users.id row)
      else None
  | None => None
  end.

(** The "Create account" button (lines 297-305): [None] is 'Provide
    username and password', [Some ok] the answer of [create_user], whose
    exception the handler does not catch. *)
Definition create_account (s : store) (new_user new_pw salt : string)
    : result (store * option bool) :=
  match new_user, new_pw with
  | EmptyString, _ => Ok (s, None)
  | _, EmptyString => Ok (s, None)
  | _, _ =>
      match create_user s new_user new_pw salt with
      | Ok (s', ok) => Ok (s', Some ok)
      | Raise e => Raise e
      end
  end.

(** The "Login" button (lines 309-315): the account the session is bound
    to, or [None] for 'Invalid credentials'. [if uid:] is false for [None]
    and for 0. *)
Definition login (s : store) (user pw : string) : option Z :=
  match authenticate s user pw with
  | Some uid => if uid =? 0 then None else Some uid
  | None => None
  end.

End Accounts.

(** What the page does for the logged-in account before it draws anything
    (lines 333-340): the seeding trigger, then [get_settings]. *)
Definition open_page (s : store) (user_id : Z)
    : option (store * list FoodsDF.row * SettingsDict.t) :=
  let s1 := with_data (fun d => ensure_sample_foods d user_id) s in
  match get_settings s1 user_id with
  | Some (s2, dict) => Some (s2, get_foods (data s2) user_id, dict)
  | None => None
  end.

(** The store the "Create account" button leaves behind: the one it
    answers with, or the one it started from when [create_user] raised. *)
Definition after_create_account (hashpw : string -> string -> option string)
    (s : store) (new_user new_pw salt : string) : store :=
  match create_account hashpw s new_user new_pw salt with
  | Ok (s', _) => s'
  | Raise _ => s
  end.

(** A stand-in for bcrypt, to instantiate the statements on: the hash is
    the password itself, and a password longer than 72 bytes is refused. *)
Definition plain_hashpw (password salt : string) : option string :=
  if (String.length password <=? 72)%nat then Some password else None.

Definition plain_checkpw (password pw_hash : string) : option bool :=
  Some (password =? pw_hash)%string.

(** A password of 73 bytes. *)
Definition long_password : string :=
  "0123456789012345678901234567890123456789012345678901234567890123456789012".

Definition registered (s : store) (user_id : Z) : Prop :=
  In user_id (map Users.id (users s)).

(** The states of the whole file that the application can reach: accounts
    are created by the "Create account" button, and every other operation
    is issued for an account that exists, the one the session is bound
    to. *)
Inductive app_reachable (hashpw : string -> string -> option string)
    : store -> Prop :=
| app_init : app_reachable hashpw init_store
| app_create_account (s : store) (new_user new_pw salt : string) :
    app_reachable hashpw s ->
    app_reachable hashpw (after_create_account hashpw s new_user new_pw salt)
| app_open_page (s : store) (u : Z) :
    app_reachable hashpw s -> registered s u ->
    app_reachable hashpw
      (match open_page s u with Some (s', _, _) => s' | None => s end)
| app_add_entry (s : store) (u : Z) (today : date) (now : string)
    (food_choice : string) (weight : Q) (meal : string) :
    app_reachable hashpw s -> registered s u ->
    app_reachable hashpw
      (with_data
         (fun d => match add_entry today now d u food_choice weight meal with
                   | Ok d' => d'
                   | Raise _ => d
                   end) s)
| app_add_food_form (s : store) (u : Z) (name : string)
    (kcal protein carbs fat : Q) :
    app_reachable hashpw s -> registered s u ->
    app_reachable hashpw
      (with_data
         (fun d => match add_food_form d u name kcal protein carbs fat with
                   | Some d' => d'
                   | None => d
                   end) s)
| app_delete_entry (s : store) (u : Z) (today : date) (del_id : Z) :
    app_reachable hashpw s -> registered s u ->
    app_reachable hashpw (with_data (fun d => delete_entry today d u del_id) s)
| app_save_settings (s : store) (u : Z) (g b l dn sn : Q) :
    app_reachable hashpw s -> registered s u ->
    app_reachable hashpw (update_settings s u g b l dn sn).

(** What holds of the two account tables in every such state. *)
Definition users_wf (s : store) : Prop :=
  0 <= users_seq s
  /\ StronglySorted (fun a b => Users.id a < Users.id b) (users s)
  /\ Forall (fun r => 1 <= Users.id r <= users_seq s) (users s)
  /\ NoDup (map Users.username (users s))
  /\ Forall (fun r => Users.username r <> EmptyString) (users s).

Definition settings_wf (s : store) : Prop :=
  NoDup (map Settings.user_id (settings s))
  /\ (forall u, registered s u <-> In u (map Settings.user_id (settings s))).

(** Rows of the data tables belong to accounts that exist. *)
Definition data_owned (s : store) : Prop :=
  Forall (fun r => registered s (Foods.user_id r)) (foods (data s))
  /\ Forall (fun e => registered s (Logs.user_id e)) (logs (data s)).

Definition app_invariant (s : store) : Prop :=
  users_wf s /\ settings_wf s /\ data_owned s /\ reachable (data s).

(** The store after the account "asha" was created in the empty one. *)
Definition asha_store : store :=
  after_create_account plain_hashpw init_store "asha" "s3cret" "salt".

(** * Properties *)

(** ** Text *)

Lemma lower_ascii_idempotent (c : ascii) :
  lower_ascii (lower_ascii c) = lower_ascii c.
Proof.
  destruct c as [[] [] [] [] [] [] [] []]; reflexivity.
Qed.

Lemma lower_idempotent (s : string) : lower (lower s) = lower s.
Proof.
  induction s as [|c s IH]; simpl.
  - reflexivity.
  - now rewrite lower_ascii_idempotent, IH.
Qed.

(** ** Sorting *)

Section SortingFacts.
Context {A : Type} (leb : A -> A -> bool).

Lemma insert_sorted_perm (x : A) (l : list A) :
  Permutation (insert_sorted leb x l) (x :: l).
Proof.
  induction l as [|y l IH]; simpl.
  - apply Permutation_refl.
  - destruct (leb x y).
    + apply Permutation_refl.
    + apply perm_trans with (y :: x :: l).
      * now apply perm_skip.
      * apply perm_swap.
Qed.

Lemma order_by_perm (l : list A) : Permutation (order_by leb l) l.
Proof.
  induction l as [|x l IH]; simpl.
  - apply perm_nil.
  - apply perm_trans with (x :: order_by leb l).
    + apply insert_sorted_perm.
    + now apply perm_skip.
Qed.

Lemma order_by_In (x : A) (l : list A) : In x (order_by leb l) <-> In x l.
Proof.
  split; apply Permutation_in.
  - apply order_by_perm.
  - apply Permutation_sym, order_by_perm.
Qed.

Lemma order_by_nil_inv (l : list A) : order_by leb l = [] -> l = [].
Proof.
  intros H. apply Permutation_nil. rewrite <- H.
  apply order_by_perm.
Qed.

Lemma order_by_length (l : list A) :
  List.length (order_by leb l) = List.length l.
Proof. apply Permutation_length, order_by_perm. Qed.


Hypothesis leb_total : forall a b, leb a b = true \/ leb b a = true.

Lemma insert_sorted_sorted (x : A) (l : list A) :
  Sorted (fun a b => leb a b = true) l ->
  Sorted (fun a b => leb a b = true) (insert_sorted leb x l).
Proof.
  induction l as [|y l IH]; simpl; intros Hs.
  - repeat constructor.
  - destruct (leb x y) eqn:E.
    + constructor; [exact Hs | now constructor].
    + inversion Hs as [|? ? Hs' Hhd]; subst.
      constructor; [now apply IH|].
      destruct l as [|z l]; simpl.
      * constructor. destruct (leb_total x y); congruence.
      * destruct (leb x z); constructor.
        -- destruct (leb_total x y); congruence.
        -- now inversion Hhd.
Qed.

Lemma order_by_sorted (l : list A) :
  Sorted (fun a b => leb a b = true) (order_by leb l).
Proof.
  induction l as [|x l IH]; simpl.
  - constructor.
  - now apply insert_sorted_sorted.
Qed.
End SortingFacts.

(** Sorting and then projecting is projecting and then sorting, when the
    order only looks at what the projection keeps. *)
Lemma map_order_by {A B : Type} (f : A -> B) (lebA : A -> A -> bool)
    (lebB : B -> B -> bool) (l : list A) :
  (forall a b, lebB (f a) (f b) = lebA a b) ->
  map f (order_by lebA l) = order_by lebB (map f l).
Proof.
  intros Hf. induction l as [|x l IH]; simpl; [reflexivity|].
  rewrite <- IH. generalize (order_by lebA l) as s. clear IH.
  induction s as [|y s IHs]; simpl; [reflexivity|].
  rewrite Hf. destruct (lebA x y); simpl; [reflexivity|].
  now rewrite IHs.
Qed.

(** ** Lists *)

Lemma filter_filter_neg {A : Type} (p : A -> bool) (l : list A) :
  filter p (filter (fun x => negb (p x)) l) = [].
Proof.
  induction l as [|x l IH]; simpl; [reflexivity|].
  destruct (p x) eqn:E; simpl; [exact IH|].
  now rewrite E.
Qed.

Lemma filter_comm {A : Type} (p q : A -> bool) (l : list A) :
  filter p (filter q l) = filter q (filter p l).
Proof.
  induction l as [|x l IH]; simpl; [reflexivity|].
  destruct (p x) eqn:Ep, (q x) eqn:Eq; simpl;
    rewrite ?Ep, ?Eq, IH; reflexivity.
Qed.

Lemma filter_idem {A : Type} (p : A -> bool) (l : list A) :
  filter p (filter p l) = filter p l.
Proof.
  induction l as [|x l IH]; simpl; [reflexivity|].
  destruct (p x) eqn:E; simpl; rewrite ?E, IH; reflexivity.
Qed.

Lemma filter_and {A : Type} (p q : A -> bool) (l : list A) :
  filter (fun x => p x && q x) l = filter q (filter p l).
Proof.
  induction l as [|x l IH]; simpl; [reflexivity|].
  destruct (p x) eqn:Ep; simpl; [|exact IH].
  destruct (q x); now rewrite IH.
Qed.

Lemma filter_none {A : Type} (p : A -> bool) (l : list A) :
  (forall x, In x l -> p x = false) -> filter p l = [].
Proof.
  induction l as [|x l IH]; simpl; intros H; [reflexivity|].
  rewrite (H x (or_introl eq_refl)). apply IH. intros y Hy. apply H. now right.
Qed.

Lemma filter_all {A : Type} (p : A -> bool) (l : list A) :
  (forall x, In x l -> p x = true) -> filter p l = l.
Proof.
  induction l as [|x l IH]; simpl; intros H; [reflexivity|].
  rewrite (H x (or_introl eq_refl)). f_equal. apply IH. intros y Hy.
  apply H. now right.
Qed.

(** ** Food catalog *)

Lemma get_foods_unfold (d : db) (u : Z) :
  get_foods d u
  = map foods_columns (order_by name_leb (filter (of_user u) (foods d))).
Proof. reflexivity. Qed.

Lemma get_foods_nil_inv (d : db) (u : Z) :
  get_foods d u = [] -> filter (of_user u) (foods d) = [].
Proof.
  rewrite get_foods_unfold. intros H. apply map_eq_nil in H.
  now apply order_by_nil_inv in H.
Qed.

(** The rows of account [u] after an upsert by [u]: the old rows under
    another name, then the new row. *)
Lemma add_food_of_user (d : db) (u : Z) (n : string) (k p c f : Q) :
  filter (of_user u) (foods (add_food d u n k p c f)) =
  filter (fun r => negb (named (lower n) r)) (filter (of_user u) (foods d))
    ++ [Foods.mk (foods_seq d + 1) u (lower n) k p c f].
Proof.
  unfold add_food; simpl. rewrite filter_app; simpl.
  unfold of_user at 2; simpl. rewrite Z.eqb_refl. f_equal.
  rewrite filter_comm. apply filter_ext_in. intros r Hr.
  apply filter_In in Hr. destruct Hr as [_ Hr].
  unfold food_key. now rewrite Hr.
Qed.

(** Rows of other accounts are not touched by an upsert. *)
Lemma add_food_other_user (d : db) (u v : Z) (n : string) (k p c f : Q) :
  v <> u ->
  filter (of_user v) (foods (add_food d u n k p c f)) =
  filter (of_user v) (foods d).
Proof.
  intros Hv. unfold add_food; simpl. rewrite filter_app; simpl.
  unfold of_user at 2; simpl.
  replace (u =? v) with false by (symmetry; apply Z.eqb_neq; congruence).
  rewrite app_nil_r, filter_comm. apply filter_all. intros r Hr.
  apply filter_In in Hr. destruct Hr as [_ Hr]. apply Z.eqb_eq in Hr.
  unfold food_key, of_user.
  replace (Foods.user_id r =? u) with false
    by (symmetry; apply Z.eqb_neq; congruence).
  reflexivity.
Qed.

(** After an upsert exactly one row holds the key, the one just written. *)
Lemma add_food_key (d : db) (u : Z) (n : string) (k p c f : Q) :
  filter (food_key u (lower n)) (foods (add_food d u n k p c f)) =
  [Foods.mk (foods_seq d + 1) u (lower n) k p c f].
Proof.
  unfold add_food; simpl. rewrite filter_app, filter_filter_neg; simpl.
  unfold food_key, of_user, named; simpl.
  now rewrite Z.eqb_refl, String.eqb_refl.
Qed.

Lemma food_key_split (u : Z) (n : string) (l : list Foods.row) :
  filter (food_key u n) l = filter (named n) (filter (of_user u) l).
Proof. apply (filter_and (of_user u) (named n)). Qed.

Lemma get_foods_named (d : db) (u : Z) (n : string) :
  Permutation
    (filter (fun r => (FoodsDF.name r =? n)%string) (get_foods d u))
    (map foods_columns (filter (food_key u n) (foods d))).
Proof.
  rewrite get_foods_unfold, food_key_split.
  assert (Hm : forall l, filter (fun r => (FoodsDF.name r =? n)%string)
                           (map foods_columns l)
                         = map foods_columns (filter (named n) l)).
  { induction l as [|r l IH]; simpl; [reflexivity|].
    unfold named at 1. destruct (Foods.name r =? n)%string; simpl;
      now rewrite IH. }
  rewrite Hm. apply Permutation_map.
  generalize (order_by_perm name_leb (filter (of_user u) (foods d))).
  generalize (order_by name_leb (filter (of_user u) (foods d))) as s.
  generalize (filter (of_user u) (foods d)) as t.
  intros t s Hp. induction Hp; simpl.
  - constructor.
  - destruct (named n x); [now constructor | assumption].
  - destruct (named n x), (named n y); try apply Permutation_refl.
    apply perm_swap.
  - eapply perm_trans; eassumption.
Qed.

Lemma get_foods_columns_first (d : db) (u : Z) :
  get_foods d u =
  order_by df_name_leb (map foods_columns (filter (of_user u) (foods d))).
Proof.
  rewrite get_foods_unfold. apply map_order_by. reflexivity.
Qed.

(** The listing is in ascending order of name, whatever the table holds. *)
Lemma get_foods_sorted (d : db) (u : Z) :
  Sorted (fun a b => df_name_leb a b = true) (get_foods d u).
Proof.
  rewrite get_foods_columns_first. apply order_by_sorted.
  intros a b. apply String.leb_total.
Qed.

(** C5. Upserting is a total, last-write-wins set operation on the
    lower-cased name: after two upserts by one account whose names agree
    after lower-casing, the table holds exactly one row under that key, the
    listing holds exactly one definition of that name, both with the values
    of the second upsert, and the listing is what the second upsert alone
    would have produced. *)
Theorem add_food_last_write_wins
    (d : db) (u : Z) (n1 n2 : string) (k1 p1 c1 f1 k2 p2 c2 f2 : Q) :
  lower n1 = lower n2 ->
  let d2 := add_food (add_food d u n1 k1 p1 c1 f1) u n2 k2 p2 c2 f2 in
  filter (food_key u (lower n2)) (foods d2)
    = [Foods.mk (foods_seq d + 2) u (lower n2) k2 p2 c2 f2]
  /\ filter (fun r => (FoodsDF.name r =? lower n2)%string) (get_foods d2 u)
    = [FoodsDF.mk (lower n2) k2 p2 c2 f2]
  /\ get_foods d2 u = get_foods (add_food d u n2 k2 p2 c2 f2) u.
Proof.
  intros Hn d2.
  assert (Hkey : filter (food_key u (lower n2)) (foods d2)
                 = [Foods.mk (foods_seq d + 2) u (lower n2) k2 p2 c2 f2]).
  { unfold d2. rewrite add_food_key. simpl.
    now replace (foods_seq d + 1 + 1) with (foods_seq d + 2) by lia. }
  split; [exact Hkey|]. split.
  - apply Permutation_length_1_inv, Permutation_sym.
    eapply perm_trans; [apply get_foods_named|].
    rewrite Hkey. apply Permutation_refl.
  - rewrite !get_foods_columns_first. f_equal. unfold d2.
    rewrite !add_food_of_user, <- Hn.
    rewrite filter_app, filter_idem; simpl.
    unfold named at 2; simpl. rewrite String.eqb_refl; simpl.
    rewrite app_nil_r, !map_app. reflexivity.
Qed.

Lemma add_food_last_write_wins_witness :
  lower "Egg" = lower "EGG" /\
  get_foods (add_food (add_food init_db 1 "Egg" 155 13 1.1 11)
               1 "EGG" 140 12 1 10) 1
  = [FoodsDF.mk "egg" 140 12 1 10].
Proof.
  split; [reflexivity|].
  destruct (add_food_last_write_wins init_db 1 "Egg" "EGG"
              155 13 1.1 11 140 12 1 10 eq_refl) as (_ & _ & H).
  rewrite H. reflexivity.
Defined.

Lemma seed_listing (d : db) (u : Z) :
  filter (of_user u) (foods d) = [] ->
  get_foods (seed_example_foods_for_user d u) u = sample_listing.
Proof.
  intros H. rewrite get_foods_columns_first.
  unfold seed_example_foods_for_user, sample; simpl fold_left.
  rewrite !add_food_of_user, H. reflexivity.
Qed.

Lemma seed_other_user (d : db) (u v : Z) :
  v <> u ->
  get_foods (seed_example_foods_for_user d u) v = get_foods d v.
Proof.
  intros Hv. rewrite !get_foods_unfold.
  unfold seed_example_foods_for_user, sample; simpl fold_left.
  now rewrite !add_food_other_user.
Qed.

(** C8. The seeding trigger looks at the listing only. On an empty listing
    it writes the ten default foods, after which the listing is exactly
    those ten in ascending order of name, the trigger does nothing when run
    again, and no other account's listing has changed. On a non-empty
    listing the trigger leaves the database as it is. *)
Theorem seeding_on_empty_catalog (d : db) (u : Z) :
  (get_foods d u = [] ->
   let d' := ensure_sample_foods d u in
   get_foods d' u = sample_listing
   /\ map FoodsDF.name (get_foods d' u)
      = ["apple"; "banana"; "chicken"; "dal"; "egg"; "milk"; "oats";
         "paneer"; "rice"; "roti"]%string
   /\ Sorted (fun a b => df_name_leb a b = true) (get_foods d' u)
   /\ List.length (filter (of_user u) (foods d')) = 10%nat
   /\ ensure_sample_foods d' u = d'
   /\ forall v, v <> u -> get_foods d' v = get_foods d v)
  /\ (get_foods d u <> [] -> ensure_sample_foods d u = d).
Proof.
  split.
  - intros H d'.
    assert (Hd : d' = seed_example_foods_for_user d u).
    { unfold d', ensure_sample_foods. now rewrite H. }
    assert (Hl : get_foods d' u = sample_listing).
    { rewrite Hd. apply seed_listing. now apply get_foods_nil_inv. }
    split; [exact Hl|]. split; [now rewrite Hl|].
    split; [apply get_foods_sorted|]. split; [|split].
    + rewrite Hd. unfold seed_example_foods_for_user, sample; simpl fold_left.
      rewrite !add_food_of_user, (get_foods_nil_inv _ _ H). reflexivity.
    + unfold ensure_sample_foods at 1. now rewrite Hl.
    + intros v Hv. rewrite Hd. now apply seed_other_user.
  - intros H. unfold ensure_sample_foods.
    destruct (get_foods d u); [contradiction|reflexivity].
Qed.

Lemma seeding_on_empty_catalog_witness :
  get_foods init_db 1 = []
  /\ get_foods seeded_db 1 = sample_listing
  /\ get_foods seeded_db 1 <> []
  /\ ensure_sample_foods seeded_db 1 = seeded_db.
Proof.
  split; [reflexivity|]. split; [|split].
  - apply (proj1 (seeding_on_empty_catalog init_db 1)). reflexivity.
  - discriminate.
  - apply (proj2 (seeding_on_empty_catalog seeded_db 1)). discriminate.
Defined.

(** ** Entry log *)

Lemma add_food_logs (d : db) (u : Z) (n : string) (k p c f : Q) :
  logs (add_food d u n k p c f) = logs d.
Proof. reflexivity. Qed.

Lemma seed_logs (d : db) (u : Z) :
  logs (seed_example_foods_for_user d u) = logs d.
Proof. reflexivity. Qed.

Lemma ensure_sample_foods_logs (d : db) (u : Z) :
  logs (ensure_sample_foods d u) = logs d.
Proof.
  unfold ensure_sample_foods. destruct (get_foods d u); reflexivity.
Qed.

Lemma delete_log_In (d : db) (u i : Z) (e : Logs.row) :
  In e (logs (delete_log d u i)) <->
  In e (logs d) /\ ~ (Logs.user_id e = u /\ Logs.id e = i).
Proof.
  unfold delete_log; simpl. rewrite filter_In, negb_true_iff, andb_false_iff.
  rewrite !Z.eqb_neq. intuition.
  destruct (Z.eq_dec (Logs.user_id e) u); [right|left]; intuition.
Qed.

(** ** Invariants of the reachable states *)

Lemma filter_length_le {A : Type} (p : A -> bool) (l : list A) :
  (List.length (filter p l) <= List.length l)%nat.
Proof.
  induction l as [|x l IH]; simpl; [lia|].
  destruct (p x); simpl; lia.
Qed.

Lemma ascending_ids_filter (p : Logs.row -> bool) (l : list Logs.row) :
  ascending_ids l -> ascending_ids (filter p l).
Proof.
  unfold ascending_ids. induction 1 as [|x l Hs IH Hx]; simpl.
  - constructor.
  - destruct (p x); [|exact IH]. constructor; [exact IH|].
    apply Forall_forall. intros y Hy. apply filter_In in Hy.
    rewrite Forall_forall in Hx. now apply Hx.
Qed.

Lemma ascending_ids_snoc (l : list Logs.row) (e : Logs.row) :
  ascending_ids l ->
  Forall (fun x => Logs.id x < Logs.id e) l ->
  ascending_ids (l ++ [e]).
Proof.
  unfold ascending_ids. induction 1 as [|x l Hs IH Hx]; simpl; intros Hlt.
  - repeat constructor.
  - inversion Hlt as [|? ? Hxe Hle]; subst. constructor; [now apply IH|].
    apply Forall_app. split; [exact Hx | now constructor].
Qed.

(** Around an entry of an ascending table every other identifier differs. *)
Lemma ascending_ids_split (l1 l2 : list Logs.row) (e : Logs.row) :
  ascending_ids (l1 ++ e :: l2) ->
  forall x, In x (l1 ++ l2) -> Logs.id x <> Logs.id e.
Proof.
  unfold ascending_ids. induction l1 as [|y l1 IH]; simpl; intros Hs x Hx.
  - inversion Hs as [|? ? _ Hall]; subst.
    rewrite Forall_forall in Hall. specialize (Hall x Hx). lia.
  - inversion Hs as [|? ? Hs' Hall]; subst. destruct Hx as [->|Hx].
    + rewrite Forall_forall in Hall.
      assert (In e (l1 ++ e :: l2)) by (apply in_elt).
      specialize (Hall e H). lia.
    + now apply IH.
Qed.

(** [ORDER BY id] finds an ascending table already in order. *)
Lemma order_by_id_ascending (l : list Logs.row) :
  ascending_ids l -> order_by id_leb l = l.
Proof.
  unfold ascending_ids. induction 1 as [|x l Hs IH Hx]; simpl.
  - reflexivity.
  - rewrite IH. destruct l as [|y l]; simpl; [reflexivity|].
    inversion Hx as [|? ? Hxy _]; subst. unfold id_leb.
    replace (Logs.id x <=? Logs.id y) with true
      by (symmetry; apply Z.leb_le; lia).
    reflexivity.
Qed.

Lemma add_food_foods_wf (d : db) (u : Z) (n : string) (k p c f : Q) :
  foods_wf d -> foods_wf (add_food d u n k p c f).
Proof.
  intros [Huniq Hlow]. split.
  - intros u' n'. unfold add_food; simpl. rewrite filter_app, length_app.
    simpl. destruct (food_key u' n' _) eqn:E; simpl.
    + unfold food_key, of_user, named in E; simpl in E.
      apply andb_true_iff in E. destruct E as [Eu En].
      apply Z.eqb_eq in Eu. apply String.eqb_eq in En. subst u' n'.
      rewrite filter_filter_neg. simpl. lia.
    + specialize (Huniq u' n').
      rewrite filter_comm.
      pose proof (filter_length_le (fun r => negb (food_key u (lower n) r))
                    (filter (food_key u' n') (foods d))).
      lia.
  - unfold add_food; simpl. apply Forall_app. split.
    + apply Forall_forall. intros r Hr. apply filter_In in Hr.
      rewrite Forall_forall in Hlow. now apply Hlow.
    + constructor; [|constructor]. simpl. apply lower_idempotent.
Qed.

Lemma seed_foods_wf (d : db) (u : Z) :
  foods_wf d -> foods_wf (seed_example_foods_for_user d u).
Proof.
  unfold seed_example_foods_for_user. generalize sample as l. intros l.
  revert d. induction l as [|[[[[n k] p] c] f] l IH]; simpl; intros d H.
  - exact H.
  - apply IH. now apply add_food_foods_wf.
Qed.

Lemma log_food_logs_wf (d : db) (u : Z) (day : date) (t fd : string)
    (w k p c f : Q) (m : string) :
  logs_wf d -> logs_wf (log_food d u day t fd w k p c f m).
Proof.
  intros [Hasc Hle]. split; simpl.
  - apply ascending_ids_snoc; [exact Hasc|].
    eapply Forall_impl; [|exact Hle]. simpl. intros e He. lia.
  - apply Forall_app. split.
    + eapply Forall_impl; [|exact Hle]. simpl. intros e He. lia.
    + constructor; [simpl; lia | constructor].
Qed.

Lemma delete_log_logs_wf (d : db) (u i : Z) :
  logs_wf d -> logs_wf (delete_log d u i).
Proof.
  intros [Hasc Hle]. split; simpl.
  - now apply ascending_ids_filter.
  - apply Forall_forall. intros e He. apply filter_In in He.
    rewrite Forall_forall in Hle. now apply Hle.
Qed.

(** Every reachable state satisfies the constraints of both tables. *)
Lemma reachable_wf (d : db) : reachable d -> logs_wf d /\ foods_wf d.
Proof.
  induction 1 as [|a d Hr [Hl Hf]].
  - split; [split; constructor | split; [|constructor]].
    intros u n. simpl. lia.
  - destruct a as [u n k p c f|u|u day t fd w k p c f m|u i]; simpl.
    + split; [exact Hl | now apply add_food_foods_wf].
    + split; [exact Hl | now apply seed_foods_wf].
    + split; [now apply log_food_logs_wf | exact Hf].
    + split; [now apply delete_log_logs_wf | exact Hf].
Qed.

(** In a reachable state the day's listing is the account's entries of
    that day in the order they were logged. *)
Lemma get_logs_for_date_in_order (d : db) (u : Z) (day : date) :
  reachable d ->
  get_logs_for_date d u day = map logs_columns (entries_on d u day).
Proof.
  intros Hr. unfold get_logs_for_date, entries_on. f_equal.
  apply order_by_id_ascending, ascending_ids_filter.
  now destruct (reachable_wf d Hr) as [[Hasc _] _].
Qed.

(** In a reachable state deleting an entry of the account takes out that
    one entry and nothing else. *)
Lemma delete_log_exact (d : db) (u i : Z) (e : Logs.row) :
  logs_wf d -> In e (logs d) -> Logs.user_id e = u -> Logs.id e = i ->
  exists l1 l2, logs d = l1 ++ e :: l2
                /\ logs (delete_log d u i) = l1 ++ l2.
Proof.
  intros [Hasc _] Hin Hu Hi. apply in_split in Hin.
  destruct Hin as (l1 & l2 & Hl). exists l1, l2. split; [exact Hl|].
  unfold delete_log; simpl. rewrite Hl in Hasc |- *.
  pose proof (ascending_ids_split l1 l2 e Hasc) as Hne.
  rewrite filter_app; simpl. rewrite Hu, Hi, !Z.eqb_refl; simpl.
  rewrite <- filter_app. apply filter_all. intros x Hx.
  apply negb_true_iff, andb_false_iff. right. apply Z.eqb_neq.
  rewrite <- Hi. now apply Hne.
Qed.

(** Two entries of an ascending table under one identifier are one entry. *)
Lemma ascending_ids_unique (l : list Logs.row) (e e' : Logs.row) :
  ascending_ids l -> In e l -> In e' l -> Logs.id e' = Logs.id e -> e' = e.
Proof.
  intros Hasc He He' Hid. apply in_split in He.
  destruct He as (l1 & l2 & Hl). subst l.
  apply in_elt_inv in He'. destruct He' as [He'|He']; [now symmetry|].
  now apply (ascending_ids_split l1 l2 e Hasc) in He'.
Qed.

(** What one write operation leaves in the table of entries: entries that
    were there, unchanged, and at most one new entry, stored under the next
    identifier. *)
Lemma run_entries (a : action) (d : db) (e : Logs.row) :
  In e (logs (run a d)) ->
  In e (logs d)
  \/ exists u day t fd w k p c f m,
       a = LogFood u day t fd w k p c f m
       /\ e = Logs.mk (logs_seq d + 1) u day t (lower fd) w k p c f m.
Proof.
  intros H. destruct a as [u n k p c f|u|u day t fd w k p c f m|u i];
    simpl in H.
  - left. exact H.
  - left. exact H.
  - apply in_app_or in H. destruct H as [H|[H|[]]]; [now left|right].
    exists u, day, t, fd, w, k, p, c, f, m. now split.
  - left. now apply delete_log_In in H.
Qed.

Lemma run_logs_seq (a : action) (d : db) : logs_seq d <= logs_seq (run a d).
Proof.
  destruct a; simpl; lia.
Qed.

(** Identifiers are not reused: whatever is stored after any sequence of
    operations was stored before or carries an identifier above the old
    counter. *)
Lemma runs_entries (l : list action) (d : db) (e : Logs.row) :
  In e (logs (runs l d)) -> In e (logs d) \/ logs_seq d < Logs.id e.
Proof.
  revert d. induction l as [|a l IH]; simpl; intros d H; [now left|].
  destruct (IH _ H) as [Hin|Hlt].
  - destruct (run_entries a d e Hin) as [Hold|Hnew]; [now left|right].
    destruct Hnew as (u & day & t & fd & w & k & p & c & f & m & _ & He).
    subst e. simpl. lia.
  - right. pose proof (run_logs_seq a d). lia.
Qed.

Lemma runs_stored_entry (l : list action) (d : db) (e e' : Logs.row) :
  logs_wf d ->
  In e (logs d) -> In e' (logs (runs l d)) -> Logs.id e' = Logs.id e ->
  e' = e.
Proof.
  intros [Hasc Hle] He He' Hid.
  destruct (runs_entries l d e' He') as [Hin|Hlt].
  - now apply (ascending_ids_unique (logs d)).
  - rewrite Forall_forall in Hle. specialize (Hle e He). lia.
Qed.

(** C6. A stored log entry is never rewritten. Upserting a food, seeding
    the catalog and the seeding trigger leave the table of entries exactly
    as it was, whatever the food names in it, and so the day's listing too.
    After any write operation every stored entry is either an entry that
    was stored before, with every field as it was, or the one entry that
    operation created. From a reachable state on, whatever sequence of
    operations follows, an entry found under the identifier of a stored
    entry is that entry, field by field. *)
Theorem log_entries_immutable :
  (forall d u n k p c f, logs (add_food d u n k p c f) = logs d)
  /\ (forall d u, logs (seed_example_foods_for_user d u) = logs d)
  /\ (forall d u, logs (ensure_sample_foods d u) = logs d)
  /\ (forall d u n k p c f v day,
        get_logs_for_date (add_food d u n k p c f) v day
        = get_logs_for_date d v day)
  /\ (forall a d e,
        In e (logs (run a d)) ->
        In e (logs d)
        \/ exists u day t fd w k p c f m,
             a = LogFood u day t fd w k p c f m
             /\ e = Logs.mk (logs_seq d + 1) u day t (lower fd) w k p c f m)
  /\ (forall l d e e',
        reachable d ->
        In e (logs d) -> In e' (logs (runs l d)) ->
        Logs.id e' = Logs.id e ->
        e' = e).
Proof.
  split; [exact add_food_logs|]. split; [exact seed_logs|].
  split; [exact ensure_sample_foods_logs|]. split; [reflexivity|].
  split; [exact run_entries|].
  intros l d e e' Hr. apply runs_stored_entry.
  now destruct (reachable_wf d Hr).
Qed.

Lemma log_entries_immutable_witness :
  logs (add_food one_entry_db 1 "egg" 999 9 9 9) = [egg_entry]
  /\ get_logs_for_date (add_food one_entry_db 1 "Egg" 999 9 9 9) 1 738000
     = get_logs_for_date one_entry_db 1 738000
  /\ (forall e',
        In e' (logs (runs [AddFood 1 "egg" 999 9 9 9; DeleteLog 2 1]
                       one_entry_db)) ->
        Logs.id e' = Logs.id egg_entry ->
        e' = egg_entry).
Proof.
  destruct log_entries_immutable as (Hadd & _ & _ & Hday & _ & Hruns).
  split; [apply Hadd|]. split; [apply Hday|].
  intros e'. apply Hruns.
  - apply (reachable_run
             (LogFood 1 738000 "08:00:00" "egg" 50 77.5 6.5 0.55 5.5
                "Breakfast") init_db reachable_init).
  - left. reflexivity.
Defined.



(** ** Numbers *)








(** ** Goal progress *)


(** The progress bar on some concrete days: under, at, over the goal, and
    with a goal of 0. *)
Example progress_examples :
  progress 2000 500 = Ok (500 / 2000)%Q
  /\ progress 2000 2000 = Ok (2000 / 2000)%Q
  /\ progress 2000 2600 = Ok 1%Q
  /\ progress 0 0 = Ok 0%Q
  /\ progress 0 350 = Ok 1%Q
  /\ (remaining 2000 2600 == -600)%Q.
Proof. repeat split. Qed.

(** ** Nutrient scaling *)




(** ** The "Add entry" handler *)

Lemma get_foods_In (d : db) (u : Z) (row : FoodsDF.row) :
  In row (get_foods d u) <->
  exists r, In r (foods d) /\ Foods.user_id r = u /\ foods_columns r = row.
Proof.
  rewrite get_foods_unfold, in_map_iff. split.
  - intros (r & Hr & Hin). apply order_by_In, filter_In in Hin.
    destruct Hin as [Hin Hu]. apply Z.eqb_eq in Hu. now exists r.
  - intros (r & Hin & Hu & Hr). exists r. split; [exact Hr|].
    apply order_by_In, filter_In. split; [exact Hin|].
    now apply Z.eqb_eq.
Qed.

(** C2 as stated fails. For a food of the catalog the handler accepts a
    weight of zero and a negative weight and persists an entry; [log_food]
    persists an entry for a food that the (empty) catalog does not hold. *)
Lemma append_validates_nothing :
  ~ (0 < 0)%Q
  /\ (exists d', add_entry 738000 "08:00:00" seeded_db 1 "egg" 0 "Breakfast"
                 = Ok d'
                 /\ map Logs.weight_g (logs d') = [0%Q])
  /\ ~ (0 < -50)%Q
  /\ (exists d', add_entry 738000 "08:00:00" seeded_db 1 "egg" (-50) "Breakfast"
                 = Ok d'
                 /\ map Logs.weight_g (logs d') = [(-50)%Q])
  /\ get_foods init_db 1 = []
  /\ map Logs.food
       (logs (log_food init_db 1 738000 "08:00:00" "pizza" 100 266 11 33 10
                "Dinner"))
     = ["pizza"%string].
Proof.
  split; [discriminate|]. split.
  { eexists. split; reflexivity. }
  split; [discriminate|]. split.
  { eexists. split; reflexivity. }
  split; reflexivity.
Qed.

(** C2, as the code has it. [log_food] checks nothing: for every food name
    and every weight it appends one entry that holds the lower-cased name
    and the values it was given. The handler only looks the chosen name up
    in the account's listing. When the account has no food of that name the
    lookup raises [IndexError] and nothing is written. When it has one, then
    for every weight, positive or not, the handler appends one entry dated
    today whose four nutrient values are the listed densities times the
    weight over 100. *)
Theorem add_entry_lookup_only
    (today : date) (now : string) (d : db) (u : Z) (food_choice : string)
    (w : Q) (meal : string) :
  (forall kcal protein carbs fat,
     logs (log_food d u today now food_choice w kcal protein carbs fat meal)
     = logs d ++ [Logs.mk (logs_seq d + 1) u today now (lower food_choice) w
                    kcal protein carbs fat meal])
  /\ ((forall r, In r (foods d) -> Foods.user_id r = u ->
                 Foods.name r <> food_choice) ->
      add_entry today now d u food_choice w meal = Raise IndexError)
  /\ ((exists r, In r (foods d) /\ Foods.user_id r = u
                 /\ Foods.name r = food_choice) ->
      exists row,
        In row (get_foods d u)
        /\ FoodsDF.name row = food_choice
        /\ add_entry today now d u food_choice w meal
           = Ok (log_food d u today now food_choice w
                   (FoodsDF.kcal_per_100g row * w / 100)%Q
                   (FoodsDF.protein_per_100g row * w / 100)%Q
                   (FoodsDF.carbs_per_100g row * w / 100)%Q
                   (FoodsDF.fat_per_100g row * w / 100)%Q meal)).
Proof.
  split; [reflexivity|]. split.
  - intros H. unfold add_entry. rewrite filter_none; [reflexivity|].
    intros row Hrow. apply get_foods_In in Hrow.
    destruct Hrow as (r & Hin & Hu & Hr). subst row; simpl.
    apply String.eqb_neq. now apply H.
  - intros (r & Hin & Hu & Hn). unfold add_entry.
    destruct (filter (fun r0 => (FoodsDF.name r0 =? food_choice)%string)
                (get_foods d u)) as [|row rest] eqn:E.
    + exfalso.
      assert (Hf : In (foods_columns r) []).
      { rewrite <- E. apply filter_In. split.
        - apply get_foods_In. now exists r.
        - simpl. now apply String.eqb_eq. }
      exact Hf.
    + assert (Hrow : In row (row :: rest)) by now left.
      rewrite <- E in Hrow. apply filter_In in Hrow.
      destruct Hrow as [Hrow Hname]. apply String.eqb_eq in Hname.
      exists row. repeat split; assumption.
Qed.

Lemma add_entry_lookup_only_witness :
  add_entry 738000 "08:00:00" seeded_db 1 "pizza" 100 "Dinner"
  = Raise IndexError
  /\ exists row,
       In row (get_foods seeded_db 1) /\ FoodsDF.name row = "egg"%string
       /\ add_entry 738000 "08:00:00" seeded_db 1 "egg" 0 "Breakfast"
          = Ok (log_food seeded_db 1 738000 "08:00:00" "egg" 0
                  (FoodsDF.kcal_per_100g row * 0 / 100)%Q
                  (FoodsDF.protein_per_100g row * 0 / 100)%Q
                  (FoodsDF.carbs_per_100g row * 0 / 100)%Q
                  (FoodsDF.fat_per_100g row * 0 / 100)%Q "Breakfast").
Proof.
  split.
  - apply (add_entry_lookup_only 738000 "08:00:00" seeded_db 1 "pizza" 100
             "Dinner").
    intros r Hr _. vm_compute in Hr.
    repeat (destruct Hr as [Hr|Hr]; [subst r; discriminate|]).
    destruct Hr.
  - apply (add_entry_lookup_only 738000 "08:00:00" seeded_db 1 "egg" 0
             "Breakfast").
    exists (Foods.mk 4 1 "egg" 155 13.0 1.1 11.0).
    split; [|split; reflexivity].
    vm_compute. tauto.
Defined.

(** ** Per-meal breakdown *)




(** The breakfast-only day: two entries of 100 and 50 kcal give one group
    and no key for lunch, dinner or snack. *)
Example meal_summary_breakfast_only :
  meal_summary (get_logs_for_date breakfast_day 1 738000)
  = Some [MealDF.mk "Breakfast" 150 7 20 5].
Proof. reflexivity. Qed.


(** ** History *)

Lemma date_range_In (start today k : date) :
  In k (date_range start today) <-> start <= k <= today.
Proof.
  unfold date_range. rewrite in_map_iff. split.
  - intros (i & Hk & Hi). apply in_seq in Hi. lia.
  - intros Hk. exists (Z.to_nat (k - start)). split; [lia|].
    apply in_seq. lia.
Qed.

Lemma date_range_window (today N : Z) :
  1 <= N ->
  date_range (today - (N - 1)) today
  = map (fun i => today - (N - 1) + Z.of_nat i) (seq 0 (Z.to_nat N)).
Proof.
  intros HN. unfold date_range. do 2 f_equal. lia.
Qed.

Lemma date_range_length (today N : Z) :
  1 <= N -> Z.of_nat (List.length (date_range (today - (N - 1)) today)) = N.
Proof.
  intros HN. rewrite date_range_window by exact HN.
  rewrite length_map, length_seq. lia.
Qed.

(** Looking a label up among rows that were built one per key. *)
Lemma find_keyed (g : date -> HistoryDF.row) (keys : list date) (k : date) :
  (forall k', HistoryDF.entry_date (g k') = k') ->
  find (fun r => HistoryDF.entry_date r =? k) (map g keys)
  = if in_dec Z.eq_dec k keys then Some (g k) else None.
Proof.
  intros Hg. induction keys as [|k' keys IH]; simpl; [reflexivity|].
  rewrite Hg. destruct (Z.eqb_spec k' k) as [He|Hne].
  - destruct (Z.eq_dec k' k); [now subst k'|contradiction].
  - rewrite IH. destruct (Z.eq_dec k' k) as [He|Hn]; [contradiction|].
    destruct (in_dec Z.eq_dec k keys); reflexivity.
Qed.

(** Inside the window the rows of a date that the query kept are the
    account's entries of that date. *)
Lemma entries_on_window (d : db) (u : Z) (start k : date) :
  start <= k ->
  filter (fun r => Logs.entry_date r =? k)
    (filter (fun r => (Logs.user_id r =? u) && (start <=? Logs.entry_date r))
       (logs d))
  = entries_on d u k.
Proof.
  intros Hk. unfold entries_on.
  rewrite <- (filter_and
                (fun r => (Logs.user_id r =? u)
                          && (start <=? Logs.entry_date r))
                (fun r => Logs.entry_date r =? k)).
  apply filter_ext. intros r.
  destruct (Z.eqb_spec (Logs.entry_date r) k) as [He|Hne].
  - replace (start <=? Logs.entry_date r) with true
      by (symmetry; apply Z.leb_le; lia).
    now rewrite andb_true_r.
  - now rewrite !andb_false_r.
Qed.

(** One label of [reindex] over the result of the query. *)
Lemma reindex_label (sql_sum : list Q -> Q) (d : db) (u : Z)
    (start k : date) :
  start <= k ->
  match find (fun r => HistoryDF.entry_date r =? k)
          (history_query sql_sum d u start)
  with
  | Some r => r
  | None => HistoryDF.mk k 0 0 0 0
  end = day_row sql_sum d u k.
Proof.
  intros Hk. unfold history_query.
  set (rows := filter (fun r => (Logs.user_id r =? u)
                                && (start <=? Logs.entry_date r)) (logs d)).
  rewrite find_keyed by reflexivity.
  unfold day_row. rewrite <- (entries_on_window d u start k Hk). fold rows.
  destruct (in_dec Z.eq_dec k
              (order_by Z.leb (nodup Z.eq_dec (map Logs.entry_date rows))))
    as [Hin|Hnin].
  - destruct (filter (fun r => Logs.entry_date r =? k) rows) as [|x g] eqn:E;
      [|reflexivity].
    exfalso. apply order_by_In, nodup_In, in_map_iff in Hin.
    destruct Hin as (r & Hr & Hin).
    assert (Hf : In r (filter (fun r => Logs.entry_date r =? k) rows)).
    { apply filter_In. split; [exact Hin | now apply Z.eqb_eq]. }
    rewrite E in Hf. contradiction.
  - rewrite (filter_none (fun r => Logs.entry_date r =? k) rows);
      [reflexivity|].
    intros r Hr. apply Z.eqb_neq. intros He. apply Hnin.
    apply order_by_In, nodup_In. rewrite <- He. now apply in_map.
Qed.

(** The whole frame: one row per day of the range, each what the aggregate
    makes of the account's entries of that day. *)
Lemma history_frame_rows (sql_sum : list Q -> Q) (d : db) (u : Z)
    (start today : date) :
  history_frame sql_sum d u start today
  = match pd_date_range start today with
    | Ok idx => Ok (map (day_row sql_sum d u) idx)
    | Raise e => Raise e
    end.
Proof.
  unfold history_frame, pd_date_range.
  destruct ((timestamp_min <=? start) && (start <=? timestamp_max)
            && (timestamp_min <=? today) && (today <=? timestamp_max));
    [|now destruct (history_query sql_sum d u start)].
  destruct (history_query sql_sum d u start) as [|r0 df] eqn:E.
  - f_equal. apply map_ext_in. intros k Hk. apply date_range_In in Hk.
    rewrite <- (reindex_label sql_sum d u start k) by lia.
    now rewrite E.
  - rewrite <- E. unfold reindex. f_equal. apply map_ext_in. intros k Hk.
    apply date_range_In in Hk. apply reindex_label. lia.
Qed.

Lemma get_history_rows (sql_sum : list Q -> Q) (today : date) (d : db)
    (u : Z) (days : Z) :
  get_history sql_sum today d u days
  = match history_days today days with
    | Ok idx => Ok (map (day_row sql_sum d u) idx)
    | Raise e => Raise e
    end.
Proof.
  unfold get_history, history_days.
  destruct (window_start today days); [|reflexivity].
  apply history_frame_rows.
Qed.

(** The window starts inside the calendar exactly when it is no longer
    than the ordinal of today. *)
Lemma window_start_ok (today N : Z) :
  1 <= N <= today -> today <= date_max ->
  window_start today N = Ok (today - (N - 1)).
Proof.
  unfold window_start, timedelta, date_sub, date_min, date_max.
  intros HN Ht.
  replace (Z.abs (N - 1) <=? 999999999) with true
    by (symmetry; apply Z.leb_le; lia).
  replace (1 <=? today - (N - 1)) with true
    by (symmetry; apply Z.leb_le; lia).
  replace (today - (N - 1) <=? 3652059) with true
    by (symmetry; apply Z.leb_le; lia).
  reflexivity.
Qed.

Lemma window_start_overflow (today N : Z) :
  today < N -> window_start today N = Raise OverflowError.
Proof.
  unfold window_start, timedelta, date_sub, date_min.
  intros HN. destruct (Z.abs (N - 1) <=? 999999999); [|reflexivity].
  replace (1 <=? today - (N - 1)) with false
    by (symmetry; apply Z.leb_gt; lia).
  reflexivity.
Qed.

(** The frame has its days when the whole window is in the range of
    nanosecond timestamps. *)
Lemma history_days_ok (today N : Z) :
  1 <= N -> timestamp_min <= today - (N - 1) -> today <= timestamp_max ->
  history_days today N = Ok (date_range (today - (N - 1)) today).
Proof.
  unfold history_days. intros HN Hmin Hmax.
  rewrite window_start_ok
    by (unfold timestamp_min, timestamp_max, date_max in *; lia).
  unfold pd_date_range.
  replace (timestamp_min <=? today - (N - 1)) with true
    by (symmetry; apply Z.leb_le; lia).
  replace (today - (N - 1) <=? timestamp_max) with true
    by (symmetry; apply Z.leb_le; lia).
  replace (timestamp_min <=? today) with true
    by (symmetry; apply Z.leb_le; lia).
  replace (today <=? timestamp_max) with true
    by (symmetry; apply Z.leb_le; lia).
  reflexivity.
Qed.

Lemma history_days_overflow (today N : Z) :
  today < N -> history_days today N = Raise OverflowError.
Proof.
  intros HN. unfold history_days. now rewrite window_start_overflow.
Qed.

(** Whatever the window, the days of the frame end today. *)
Lemma history_days_In (today N : Z) (idx : list date) (k : date) :
  history_days today N = Ok idx -> In k idx -> k <= today.
Proof.
  unfold history_days, pd_date_range.
  destruct (window_start today N) as [start|e]; [|discriminate].
  destruct ((timestamp_min <=? start) && (start <=? timestamp_max)
            && (timestamp_min <=? today) && (today <=? timestamp_max));
    [|discriminate].
  intros H Hk. inversion H; subst idx. apply date_range_In in Hk. lia.
Qed.

Lemma day_row_empty (sql_sum : list Q -> Q) (d : db) (u : Z) (k : date) :
  entries_on d u k = [] -> day_row sql_sum d u k = HistoryDF.mk k 0 0 0 0.
Proof. intros H. unfold day_row. now rewrite H. Qed.

Lemma day_row_date (sql_sum : list Q -> Q) (d : db) (u : Z) (k : date) :
  HistoryDF.entry_date (day_row sql_sum d u k) = k.
Proof. unfold day_row. now destruct (entries_on d u k). Qed.

Lemma day_rows_dates (sql_sum : list Q -> Q) (d : db) (u : Z)
    (l : list date) :
  map HistoryDF.entry_date (map (day_row sql_sum d u) l) = l.
Proof.
  rewrite map_map. rewrite <- (map_id l) at 2. apply map_ext.
  intros k. apply day_row_date.
Qed.

Lemma day_row_entries (sql_sum : list Q -> Q) (d : db) (u : Z) (k : date)
    (e : Logs.row) (g : list Logs.row) :
  entries_on d u k = e :: g ->
  day_row sql_sum d u k
  = HistoryDF.mk k (sql_sum (map Logs.kcal (e :: g)))
      (sql_sum (map Logs.protein (e :: g)))
      (sql_sum (map Logs.carbs (e :: g)))
      (sql_sum (map Logs.fat (e :: g))).
Proof. intros H. unfold day_row. now rewrite H. Qed.

(** C1, as the code has it. The window starts at [today - (N - 1)], a
    date that Python forms only inside its calendar and that pandas holds
    only as a nanosecond timestamp. For every [N >= 1] whose window lies in
    the range of such timestamps the history is returned and has exactly
    [N] rows, one for each day from [today - (N - 1)] to [today] in
    ascending order; the row of a day with entries holds in each channel
    what the aggregate [SUM] of the database makes of the account's entries
    of that day, the row of a day without entries is all zero and is
    present, and with no entry in the window every row is all zero. For [N]
    above the ordinal of today the start would lie before 0001-01-01 and
    the call raises [OverflowError]. *)
Theorem history_series_dense (sql_sum : list Q -> Q) (today : date)
    (d : db) (u : Z) (N : Z) :
  1 <= N ->
  (timestamp_min <= today - (N - 1) -> today <= timestamp_max ->
   let start := today - (N - 1) in
   exists h,
     get_history sql_sum today d u N = Ok h
     /\ h = map (day_row sql_sum d u) (date_range start today)
     /\ Z.of_nat (List.length h) = N
     /\ map HistoryDF.entry_date h
        = map (fun i => start + Z.of_nat i) (seq 0 (Z.to_nat N))
     /\ (forall k e g, start <= k <= today -> entries_on d u k = e :: g ->
           In (HistoryDF.mk k
                 (sql_sum (map Logs.kcal (e :: g)))
                 (sql_sum (map Logs.protein (e :: g)))
                 (sql_sum (map Logs.carbs (e :: g)))
                 (sql_sum (map Logs.fat (e :: g)))) h)
     /\ (forall k, start <= k <= today -> entries_on d u k = [] ->
           In (HistoryDF.mk k 0 0 0 0) h)
     /\ (forall r, In r h ->
           start <= HistoryDF.entry_date r <= today
           /\ r = day_row sql_sum d u (HistoryDF.entry_date r))
     /\ ((forall k, start <= k <= today -> entries_on d u k = []) ->
         h = map (fun k => HistoryDF.mk k 0 0 0 0) (date_range start today)))
  /\ (today < N -> get_history sql_sum today d u N = Raise OverflowError).
Proof.
  intros HN. split.
  - intros Hmin Hmax start.
    exists (map (day_row sql_sum d u) (date_range start today)).
    set (h := map (day_row sql_sum d u) (date_range start today)).
    assert (Hh : h = map (day_row sql_sum d u) (date_range start today))
      by reflexivity.
    split.
    { rewrite get_history_rows, history_days_ok by assumption.
      reflexivity. }
    split; [exact Hh|]. split; [|split; [|split; [|split; [|split]]]].
    + rewrite Hh, length_map. now apply date_range_length.
    + rewrite Hh, day_rows_dates. now apply date_range_window.
    + intros k e g Hk He. rewrite Hh. apply in_map_iff. exists k.
      split; [now apply day_row_entries | now apply date_range_In].
    + intros k Hk He. rewrite Hh. apply in_map_iff. exists k.
      split; [now apply day_row_empty | now apply date_range_In].
    + intros r Hr. rewrite Hh in Hr. apply in_map_iff in Hr.
      destruct Hr as (k & Hr & Hk). subst r. rewrite day_row_date.
      split; [now apply date_range_In | reflexivity].
    + intros He. rewrite Hh. apply map_ext_in. intros k Hk.
      apply day_row_empty, He. now apply date_range_In.
  - intros Hlt.
    rewrite get_history_rows, history_days_overflow by exact Hlt.
    reflexivity.
Qed.

Lemma entries_on_not_after (today : date) (d : db) (u : Z) (k : date) :
  k <= today ->
  entries_on d u k
  = filter (fun r => (Logs.user_id r =? u) && (Logs.entry_date r =? k))
      (not_after today (logs d)).
Proof.
  intros Hk. unfold entries_on, not_after.
  rewrite <- (filter_and (fun r => Logs.entry_date r <=? today)
                (fun r => (Logs.user_id r =? u) && (Logs.entry_date r =? k))).
  apply filter_ext. intros r.
  destruct (Z.eqb_spec (Logs.entry_date r) k) as [He|Hne].
  - replace (Logs.entry_date r <=? today) with true
      by (symmetry; apply Z.leb_le; lia).
    reflexivity.
  - now rewrite !andb_false_r.
Qed.

(** C10, as the code has it. Entries dated after today do not show in the
    history: two databases that hold the same entries once those dated
    after today are set aside give the same result for every [N], rows or
    error alike; in particular logging an entry under a later date, for any
    account, changes nothing. For every [N >= 1] whose window lies in the
    range of nanosecond timestamps the result is a series that spans the
    [N] days that end today; for [N] above the ordinal of today there is no
    series, the call raises [OverflowError]. *)
Theorem history_ignores_future_entries (sql_sum : list Q -> Q)
    (today : date) (d d' : db) (u : Z) (N : Z) :
  1 <= N ->
  not_after today (logs d') = not_after today (logs d) ->
  get_history sql_sum today d' u N = get_history sql_sum today d u N
  /\ (forall v day t fd w k p c f m,
        today < day ->
        get_history sql_sum today (log_food d v day t fd w k p c f m) u N
        = get_history sql_sum today d u N)
  /\ (timestamp_min <= today - (N - 1) /\ today <= timestamp_max ->
      exists h,
        get_history sql_sum today d' u N = Ok h
        /\ map HistoryDF.entry_date h
           = map (fun i => today - (N - 1) + Z.of_nat i) (seq 0 (Z.to_nat N)))
  /\ (today < N -> get_history sql_sum today d' u N = Raise OverflowError).
Proof.
  intros HN Heq.
  assert (Hsame : forall a b : db,
            not_after today (logs a) = not_after today (logs b) ->
            get_history sql_sum today a u N
            = get_history sql_sum today b u N).
  { intros a b Hab. rewrite !get_history_rows.
    destruct (history_days today N) as [idx|e] eqn:E; [|reflexivity].
    f_equal. apply map_ext_in.
    intros k Hk. apply (history_days_In today N idx k E) in Hk.
    unfold day_row.
    rewrite (entries_on_not_after today a u k) by lia.
    rewrite (entries_on_not_after today b u k) by lia.
    now rewrite Hab. }
  split; [now apply Hsame|]. split; [|split].
  - intros v day t fd w k p c f m Hday. apply Hsame.
    unfold log_food, not_after; simpl. rewrite filter_app; simpl.
    replace (day <=? today) with false by (symmetry; apply Z.leb_gt; lia).
    apply app_nil_r.
  - intros [Hmin Hmax]. eexists. split.
    + rewrite get_history_rows, history_days_ok by assumption.
      reflexivity.
    + rewrite day_rows_dates. now apply date_range_window.
  - intros Hlt.
    rewrite get_history_rows, history_days_overflow by exact Hlt.
    reflexivity.
Qed.

Lemma history_series_dense_witness :
  1 <= 3 /\ timestamp_min <= 738000 - (3 - 1) /\ 738000 <= timestamp_max
  /\ get_history SUM 738000 breakfast_day 1 3
     = Ok [ HistoryDF.mk 737998 0 0 0 0;
            HistoryDF.mk 737999 0 0 0 0;
            HistoryDF.mk 738000 150 7 20 5 ].
Proof.
  split; [lia|]. split; [unfold timestamp_min; lia|].
  split; [unfold timestamp_max; lia|].
  destruct (history_series_dense SUM 738000 breakfast_day 1 3) as [H _];
    [lia|].
  destruct H as (h & Hg & Hh & _);
    [unfold timestamp_min; lia | unfold timestamp_max; lia |].
  rewrite Hg, Hh. reflexivity.
Defined.

(** C1 as stated fails: a window one day longer than the ordinal of today
    starts before 0001-01-01, and the call raises instead of returning
    rows, whatever the aggregate and the data. *)
Lemma history_window_before_calendar :
  1 <= 738001
  /\ get_history SUM 738000 breakfast_day 1 738001 = Raise OverflowError.
Proof. split; [lia | reflexivity]. Qed.

Lemma history_ignores_future_entries_witness :
  1 <= 3
  /\ not_after 738000 (logs breakfast_day_and_later)
     = not_after 738000 (logs breakfast_day)
  /\ get_history SUM 738000 breakfast_day_and_later 1 3
     = get_history SUM 738000 breakfast_day 1 3.
Proof.
  split; [lia|]. split; [reflexivity|].
  destruct (history_ignores_future_entries SUM 738000 breakfast_day
              breakfast_day_and_later 1 3) as [H _];
    [lia | reflexivity | exact H].
Defined.

(** C10 as stated fails: with an entry dated after today in the table and
    a window one day longer than the ordinal of today, no series spanning
    the window is returned. *)
Lemma history_future_entry_window_before_calendar :
  1 <= 738001
  /\ In 738003 (map Logs.entry_date (logs breakfast_day_and_later))
  /\ get_history SUM 738000 breakfast_day_and_later 1 738001
     = Raise OverflowError.
Proof. split; [lia|]. split; [simpl; tauto | reflexivity]. Qed.

(** * More properties of the code *)

(** ** Catalog *)

Lemma NoDup_map_injective_on {A B : Type} (f : A -> B) (l : list A)
    (a b : A) :
  NoDup (map f l) -> In a l -> In b l -> f a = f b -> a = b.
Proof.
  induction l as [|x l IH]; simpl; intros Hnd Ha Hb Hf; [contradiction|].
  inversion Hnd as [|? ? Hx Hnd']; subst.
  destruct Ha as [Ha|Ha], Hb as [Hb|Hb]; subst.
  - reflexivity.
  - exfalso. apply Hx. rewrite Hf. now apply in_map.
  - exfalso. apply Hx. rewrite <- Hf. now apply in_map.
  - now apply IH.
Qed.

(** At most one row per name makes the names distinct. *)
Lemma names_NoDup (l : list Foods.row) :
  (forall n, (List.length (filter (named n) l) <= 1)%nat) ->
  NoDup (map Foods.name l).
Proof.
  induction l as [|x l IH]; simpl; intros H; [constructor|].
  constructor.
  - intros Hin. apply in_map_iff in Hin. destruct Hin as (y & Hy & Hin).
    specialize (H (Foods.name x)). unfold named at 1 in H.
    rewrite String.eqb_refl in H. simpl in H.
    assert (Hy' : In y (filter (named (Foods.name x)) l)).
    { apply filter_In. split; [exact Hin|]. now apply String.eqb_eq. }
    destruct (filter (named (Foods.name x)) l); [contradiction|].
    simpl in H. lia.
  - apply IH. intros n. specialize (H n).
    destruct (named n x); simpl in H; lia.
Qed.

Lemma get_foods_names (d : db) (u : Z) :
  Permutation (map FoodsDF.name (get_foods d u))
    (map Foods.name (filter (of_user u) (foods d))).
Proof.
  rewrite get_foods_unfold, map_map. simpl.
  apply Permutation_map, order_by_perm.
Qed.

Lemma reachable_names_NoDup (d : db) (u : Z) :
  reachable d -> NoDup (map FoodsDF.name (get_foods d u)).
Proof.
  intros Hr. destruct (reachable_wf d Hr) as [_ [Huniq _]].
  eapply Permutation_NoDup.
  - apply Permutation_sym, get_foods_names.
  - apply names_NoDup. intros n. rewrite <- food_key_split. apply Huniq.
Qed.

Lemma reachable_names_lower (d : db) (u : Z) (row : FoodsDF.row) :
  reachable d -> In row (get_foods d u) ->
  lower (FoodsDF.name row) = FoodsDF.name row.
Proof.
  intros Hr Hrow. apply get_foods_In in Hrow.
  destruct Hrow as (r & Hin & _ & Hrow). subst row. simpl.
  destruct (reachable_wf d Hr) as [_ [_ Hlow]].
  rewrite Forall_forall in Hlow. now apply Hlow.
Qed.

(** X1. In every reachable state the listing of an account is in ascending
    order of name, shows no name twice, and every name in it is in lower
    case. *)
Theorem catalog_listing_invariant (d : db) (u : Z) :
  reachable d ->
  Sorted (fun a b => df_name_leb a b = true) (get_foods d u)
  /\ NoDup (map FoodsDF.name (get_foods d u))
  /\ Forall (fun r => lower (FoodsDF.name r) = FoodsDF.name r)
       (get_foods d u).
Proof.
  intros Hr. split; [apply get_foods_sorted|].
  split; [now apply reachable_names_NoDup|].
  apply Forall_forall. intros row Hrow.
  now apply (reachable_names_lower d u).
Qed.

Lemma catalog_listing_invariant_witness :
  NoDup (map FoodsDF.name
           (get_foods (add_food seeded_db 1 "Egg" 140 12 1 10) 1)).
Proof.
  apply (catalog_listing_invariant (add_food seeded_db 1 "Egg" 140 12 1 10) 1).
  apply (reachable_run (AddFood 1 "Egg" 140 12 1 10) seeded_db).
  apply (reachable_run (SeedFoods 1) init_db reachable_init).
Defined.

(** X2. After the seeding trigger the listing of the account is never
    empty, whatever the database held before: the food selector always has
    an option. *)
Theorem listing_nonempty_after_trigger (d : db) (u : Z) :
  get_foods (ensure_sample_foods d u) u <> [].
Proof.
  unfold ensure_sample_foods.
  destruct (get_foods d u) as [|r l] eqn:E.
  - rewrite seed_listing by now apply get_foods_nil_inv. discriminate.
  - rewrite E. discriminate.
Qed.

(** ** Logging and deleting *)

Lemma breakfast_day_is_reachable : reachable breakfast_day.
Proof.
  apply (reachable_run
           (LogFood 1 738000 "08:30:00" "milk" 83 50 3 4 3 "Breakfast")).
  apply (reachable_run
           (LogFood 1 738000 "08:00:00" "oats" 25 100 4 16 2 "Breakfast")).
  apply (reachable_run (SeedFoods 1) init_db reachable_init).
Defined.

(** X3. A choice taken from the listing never fails the lookup of the
    "Add entry" handler. In a reachable state the entry that is logged
    carries the name of the chosen definition as listed and its densities
    times the weight over 100. *)
Theorem add_entry_listed_choice
    (today : date) (now : string) (d : db) (u : Z) (row : FoodsDF.row)
    (w : Q) (meal : string) :
  In row (get_foods d u) ->
  (exists d', add_entry today now d u (FoodsDF.name row) w meal = Ok d')
  /\ (reachable d ->
      add_entry today now d u (FoodsDF.name row) w meal
      = Ok (mk_db (foods d) (foods_seq d)
              (logs d ++ [Logs.mk (logs_seq d + 1) u today now
                            (FoodsDF.name row) w
                            (FoodsDF.kcal_per_100g row * w / 100)%Q
                            (FoodsDF.protein_per_100g row * w / 100)%Q
                            (FoodsDF.carbs_per_100g row * w / 100)%Q
                            (FoodsDF.fat_per_100g row * w / 100)%Q meal])
              (logs_seq d + 1))).
Proof.
  intros Hrow. unfold add_entry.
  destruct (filter (fun r => (FoodsDF.name r =? FoodsDF.name row)%string)
              (get_foods d u)) as [|row' rest] eqn:E.
  - exfalso. assert (Hin : In row []); [|exact Hin].
    rewrite <- E. apply filter_In. split; [exact Hrow|].
    apply String.eqb_refl.
  - split; [eexists; reflexivity|]. intros Hr.
    assert (Hrow' : In row' (row' :: rest)) by now left.
    rewrite <- E in Hrow'. apply filter_In in Hrow'.
    destruct Hrow' as [Hin' Hname]. apply String.eqb_eq in Hname.
    assert (Heq : row' = row).
    { apply (NoDup_map_injective_on FoodsDF.name (get_foods d u));
        auto using reachable_names_NoDup. }
    subst row'. unfold calc_from_food_row, log_food. simpl.
    now rewrite (reachable_names_lower d u row Hr Hrow).
Qed.

Lemma add_entry_listed_choice_witness :
  In egg (get_foods seeded_db 1)
  /\ exists d', add_entry 738000 "08:00:00" seeded_db 1 "egg" 50 "Breakfast"
                = Ok d'.
Proof.
  assert (H : In egg (get_foods seeded_db 1)) by (vm_compute; tauto).
  split; [exact H|].
  apply (add_entry_listed_choice 738000 "08:00:00" seeded_db 1 egg 50
           "Breakfast" H).
Defined.

Lemma entries_on_log_food (d : db) (u : Z) (day : date) (t fd : string)
    (w k p c f : Q) (m : string) (v : Z) (day' : date) :
  entries_on (log_food d u day t fd w k p c f m) v day'
  = entries_on d v day'
    ++ (if (u =? v) && (day =? day')
        then [Logs.mk (logs_seq d + 1) u day t (lower fd) w k p c f m]
        else []).
Proof.
  unfold entries_on, log_food. simpl. rewrite filter_app. simpl.
  now destruct ((u =? v) && (day =? day')).
Qed.

(** X4. In a reachable state logging an entry puts one row at the end of
    the listing of that account and day, under the next identifier and
    with the values as given; every row that was listed stays where it
    was, and the listing of any other day or account stays as it was. *)
Theorem log_food_extends_day (d : db) (u : Z) (day : date) (t fd : string)
    (w k p c f : Q) (m : string) :
  reachable d ->
  let d' := log_food d u day t fd w k p c f m in
  get_logs_for_date d' u day
  = get_logs_for_date d u day
    ++ [LogsDF.mk (logs_seq d + 1) t (lower fd) w k p c f m]
  /\ (forall v day', (v, day') <> (u, day) ->
        get_logs_for_date d' v day' = get_logs_for_date d v day').
Proof.
  intros Hr d'.
  assert (Hr' : reachable d')
    by apply (reachable_run (LogFood u day t fd w k p c f m) d Hr).
  split.
  - rewrite !get_logs_for_date_in_order by assumption.
    unfold d'. rewrite entries_on_log_food, !Z.eqb_refl. simpl.
    now rewrite map_app.
  - intros v day' Hne.
    rewrite !get_logs_for_date_in_order by assumption.
    unfold d'. rewrite entries_on_log_food.
    destruct (Z.eqb_spec u v) as [Hu|Hu]; simpl.
    + destruct (Z.eqb_spec day day') as [Hd|Hd]; simpl.
      * exfalso. apply Hne. now subst.
      * now rewrite app_nil_r.
    + now rewrite app_nil_r.
Qed.

Lemma log_food_extends_day_witness :
  get_logs_for_date
    (log_food breakfast_day 1 738000 "13:00:00" "rice" 200 260 5.4 56 0.6
       "Lunch") 1 738000
  = get_logs_for_date breakfast_day 1 738000
    ++ [LogsDF.mk 3 "13:00:00" "rice" 200 260 5.4 56 0.6 "Lunch"].
Proof.
  apply (log_food_extends_day breakfast_day 1 738000 "13:00:00" "rice" 200
           260 5.4 56 0.6 "Lunch").
  exact breakfast_day_is_reachable.
Defined.

(** X5. In a reachable state deleting the entry just logged gives back the
    table of entries as it was before, but not the identifier: the counter
    stays advanced, so the next entry gets a new identifier. *)
Theorem log_then_delete_restores (d : db) (u : Z) (day : date)
    (t fd : string) (w k p c f : Q) (m : string) :
  reachable d ->
  let d' := delete_log (log_food d u day t fd w k p c f m) u (logs_seq d + 1) in
  logs d' = logs d
  /\ foods d' = foods d
  /\ logs_seq d' = logs_seq d + 1
  /\ forall u2 day2 t2 fd2 w2 k2 p2 c2 f2 m2,
       map Logs.id (logs (log_food d' u2 day2 t2 fd2 w2 k2 p2 c2 f2 m2))
       = map Logs.id (logs d) ++ [logs_seq d + 2].
Proof.
  intros Hr d'.
  assert (Hl : logs d' = logs d).
  { unfold d', delete_log, log_food. simpl. rewrite filter_app. simpl.
    rewrite !Z.eqb_refl. simpl. rewrite app_nil_r. apply filter_all.
    intros e He. destruct (reachable_wf d Hr) as [[_ Hle] _].
    rewrite Forall_forall in Hle. specialize (Hle e He).
    apply negb_true_iff, andb_false_iff. right. apply Z.eqb_neq. lia. }
  assert (Hs : logs_seq d' = logs_seq d + 1) by reflexivity.
  split; [exact Hl|]. split; [reflexivity|]. split; [exact Hs|].
  clearbody d'. intros. unfold log_food. simpl.
  rewrite Hl, Hs, map_app. simpl. do 2 f_equal. lia.
Qed.

Lemma log_then_delete_restores_witness :
  logs (delete_log
          (log_food breakfast_day 1 738000 "13:00:00" "rice" 200 260 5.4 56
             0.6 "Lunch") 1 (logs_seq breakfast_day + 1))
  = logs breakfast_day.
Proof.
  apply (log_then_delete_restores breakfast_day 1 738000 "13:00:00" "rice"
           200 260 5.4 56 0.6 "Lunch").
  exact breakfast_day_is_reachable.
Defined.

Lemma run_positive_ids (a : action) (d : db) :
  positive_ids d -> positive_ids (run a d).
Proof.
  intros [Hs Hp]. destruct a as [u n k p c f|u|u day t fd w k p c f m|u i];
    simpl; try (split; assumption).
  - split; simpl; [lia|]. apply Forall_app. split; [exact Hp|].
    constructor; [simpl; lia | constructor].
  - split; simpl; [exact Hs|]. apply Forall_forall. intros e He.
    apply filter_In in He. rewrite Forall_forall in Hp. now apply Hp.
Qed.

Lemma reachable_positive_ids (d : db) : reachable d -> positive_ids d.
Proof.
  induction 1 as [|a d _ IH].
  - split; simpl; [lia | constructor].
  - now apply run_positive_ids.
Qed.

(** X6. The "Delete entry" button does nothing for an identifier that is
    not positive and nothing on a day whose listing is empty. In a
    reachable state whose listing for today has a row, it removes any entry
    of the account, of whatever date, when given its identifier, and only
    that entry: identifiers start at 1, so the guard never stands in the
    way of an entry that exists. *)
Theorem delete_entry_guard (today : date) (d : db) (u del_id : Z) :
  (del_id <= 0 -> delete_entry today d u del_id = d)
  /\ (get_logs_for_date d u today = [] -> delete_entry today d u del_id = d)
  /\ (reachable d -> get_logs_for_date d u today <> [] ->
      forall e, In e (logs d) -> Logs.user_id e = u -> Logs.id e = del_id ->
      exists l1 l2, logs d = l1 ++ e :: l2
                    /\ logs (delete_entry today d u del_id) = l1 ++ l2).
Proof.
  unfold delete_entry. split; [|split].
  - intros Hd. destruct (get_logs_for_date d u today); [reflexivity|].
    now replace (0 <? del_id) with false by (symmetry; apply Z.ltb_ge; lia).
  - intros H. now rewrite H.
  - intros Hr Hne e He Hu Hi.
    destruct (get_logs_for_date d u today); [contradiction|].
    destruct (reachable_positive_ids d Hr) as [_ Hp].
    rewrite Forall_forall in Hp. specialize (Hp e He).
    replace (0 <? del_id) with true by (symmetry; apply Z.ltb_lt; lia).
    apply delete_log_exact; try assumption.
    now destruct (reachable_wf d Hr).
Qed.

Lemma delete_entry_guard_witness :
  delete_entry 738000 breakfast_day 1 0 = breakfast_day
  /\ delete_entry 738001 breakfast_day 1 2 = breakfast_day
  /\ map Logs.id (logs (delete_entry 738000 breakfast_day 1 2)) = [1].
Proof.
  split; [|split].
  - apply (proj1 (delete_entry_guard 738000 breakfast_day 1 0)). lia.
  - apply (proj1 (proj2 (delete_entry_guard 738001 breakfast_day 1 2))).
    reflexivity.
  - destruct (proj2 (proj2 (delete_entry_guard 738000 breakfast_day 1 2))
                breakfast_day_is_reachable
                ltac:(discriminate)
                (Logs.mk 2 1 738000 "08:30:00" "milk" 83 50 3 4 3 "Breakfast")
                ltac:(right; left; reflexivity) eq_refl eq_refl)
      as (l1 & l2 & H1 & H2).
    rewrite H2. clear H2.
    destruct l1 as [|a [|b l1]]; simpl in H1; inversion H1; subst.
    + reflexivity.
    + destruct l1; discriminate.
Defined.

(** ** Accounts do not see each other *)

Lemma entries_on_other_actor (a : action) (d : db) (v : Z) (day : date) :
  actor a <> v -> entries_on (run a d) v day = entries_on d v day.
Proof.
  intros Hv. destruct a as [u n k p c f|u|u e t fd w k p c f m|u i];
    simpl in Hv |- *; try reflexivity.
  - rewrite entries_on_log_food.
    replace (u =? v) with false by (symmetry; now apply Z.eqb_neq).
    apply app_nil_r.
  - unfold entries_on, delete_log. simpl. rewrite filter_comm.
    apply filter_all. intros r Hr. apply filter_In in Hr.
    destruct Hr as [_ Hr]. apply andb_true_iff in Hr. destruct Hr as [Hr _].
    apply Z.eqb_eq in Hr. apply negb_true_iff, andb_false_iff. left.
    apply Z.eqb_neq. congruence.
Qed.

(** X7. A write operation issued for one account changes nothing that
    another account can read: its food listing, its listing of any day and
    its history over any window are what they were. *)
Theorem other_account_unaffected (sql_sum : list Q -> Q) (a : action)
    (d : db) (v : Z) :
  actor a <> v ->
  get_foods (run a d) v = get_foods d v
  /\ (forall day, get_logs_for_date (run a d) v day = get_logs_for_date d v day)
  /\ (forall today days,
        get_history sql_sum today (run a d) v days
        = get_history sql_sum today d v days).
Proof.
  intros Hv. split; [|split].
  - destruct a as [u n k p c f|u|u e t fd w k p c f m|u i];
      simpl in Hv |- *; try reflexivity.
    + rewrite !get_foods_unfold. rewrite add_food_other_user; congruence.
    + apply seed_other_user. congruence.
  - intros day. unfold get_logs_for_date.
    now rewrite (entries_on_other_actor a d v day Hv : filter _ _ = filter _ _).
  - intros today days. rewrite !get_history_rows.
    destruct (history_days today days) as [idx|e]; [|reflexivity].
    f_equal. apply map_ext.
    intros k. unfold day_row. now rewrite entries_on_other_actor.
Qed.

Lemma other_account_unaffected_witness :
  get_history SUM 738000
    (run (LogFood 2 738000 "09:00:00" "dal" 100 116 9 20 1 "Lunch")
       breakfast_day) 1 3
  = get_history SUM 738000 breakfast_day 1 3.
Proof.
  apply (other_account_unaffected SUM
           (LogFood 2 738000 "09:00:00" "dal" 100 116 9 20 1 "Lunch")
           breakfast_day 1).
  simpl. lia.
Defined.

(** ** The "Add / Update food" form *)

Lemma is_space_lower (c : ascii) : is_space (lower_ascii c) = is_space c.
Proof.
  destruct c as [[] [] [] [] [] [] [] []]; reflexivity.
Qed.

Lemma lstrip_blank (s : string) :
  lstrip s = EmptyString <-> blank s = true.
Proof.
  induction s as [|c s IH]; simpl; [tauto|].
  destruct (is_space c); simpl; [exact IH|].
  split; discriminate.
Qed.

Lemma rstrip_blank (s : string) :
  rstrip s = EmptyString <-> blank s = true.
Proof.
  induction s as [|c s IH]; simpl; [tauto|].
  destruct (rstrip s) as [|c' r].
  - destruct (is_space c); simpl.
    + split; [intros _; now apply IH | reflexivity].
    + split; discriminate.
  - split; [discriminate|]. intros H. apply andb_true_iff in H.
    destruct H as [_ H]. apply IH in H. discriminate.
Qed.

Lemma lstrip_first (s : string) (c : ascii) :
  first_char (lstrip s) = Some c -> is_space c = false.
Proof.
  induction s as [|a s IH]; simpl; [discriminate|].
  destruct (is_space a) eqn:E; [exact IH|].
  simpl. intros H. now inversion H; subst.
Qed.

Lemma rstrip_first (s : string) (c : ascii) :
  first_char (rstrip s) = Some c -> first_char s = Some c.
Proof.
  destruct s as [|a s]; simpl; [discriminate|].
  destruct (rstrip s); [destruct (is_space a)|]; simpl; auto; discriminate.
Qed.

Lemma rstrip_last (s : string) (c : ascii) :
  last_char (rstrip s) = Some c -> is_space c = false.
Proof.
  induction s as [|a s IH]; simpl; [discriminate|].
  destruct (rstrip s) as [|c' r].
  - destruct (is_space a) eqn:E; simpl; [discriminate|].
    intros H. now inversion H; subst.
  - exact IH.
Qed.

Lemma strip_blank (s : string) : strip s = EmptyString <-> blank s = true.
Proof.
  unfold strip. rewrite rstrip_blank. split.
  - intros H. apply lstrip_blank.
    destruct (lstrip s) as [|c r] eqn:E; [reflexivity|].
    simpl in H. apply andb_true_iff in H. destruct H as [H _].
    assert (Hc : is_space c = false)
      by (apply (lstrip_first s); now rewrite E).
    congruence.
  - intros H. apply lstrip_blank in H. now rewrite H.
Qed.

Lemma strip_trimmed (s : string) : trimmed (strip s).
Proof.
  unfold strip. split.
  - intros c H. apply rstrip_first in H. now apply lstrip_first in H.
  - apply rstrip_last.
Qed.

Lemma lower_first (s : string) :
  first_char (lower s) = option_map lower_ascii (first_char s).
Proof. destruct s; reflexivity. Qed.

Lemma lower_last (s : string) :
  last_char (lower s) = option_map lower_ascii (last_char s).
Proof.
  induction s as [|c s IH]; simpl; [reflexivity|].
  destruct s as [|c' s]; [reflexivity|exact IH].
Qed.

Lemma lower_trimmed (s : string) : trimmed s -> trimmed (lower s).
Proof.
  intros [Hf Hl]. split; intros c.
  - rewrite lower_first. destruct (first_char s) as [a|]; simpl;
      [|discriminate].
    intros H. inversion H; subst. rewrite is_space_lower. now apply Hf.
  - rewrite lower_last. destruct (last_char s) as [a|]; simpl;
      [|discriminate].
    intros H. inversion H; subst. rewrite is_space_lower. now apply Hl.
Qed.

Lemma rstrip_id (s : string) :
  (forall c, last_char s = Some c -> is_space c = false) -> rstrip s = s.
Proof.
  induction s as [|a s IH]; simpl; intros H; [reflexivity|].
  destruct s as [|b s].
  - simpl. now rewrite (H a eq_refl).
  - rewrite IH by exact H. reflexivity.
Qed.

Lemma strip_id (s : string) : trimmed s -> strip s = s.
Proof.
  intros [Hf Hl]. unfold strip.
  assert (E : lstrip s = s).
  { destruct s as [|a s]; simpl; [reflexivity|].
    now rewrite (Hf a eq_refl). }
  rewrite E. now apply rstrip_id.
Qed.

(** X8. The "Add / Update food" form rejects exactly the names that hold
    nothing but white space, and then writes nothing. Any other name is
    stored stripped and in lower case: the stored name is not empty, has no
    white space at either end, is its own lower-case and stripped form, and
    is afterwards the one definition of the account under that name.
    Spellings that differ only in case and surrounding white space reach
    the same definition. *)
Theorem add_food_form_normalises (d : db) (u : Z) (name : string)
    (k p c f : Q) :
  (add_food_form d u name k p c f = None <-> blank name = true)
  /\ (blank name = false ->
      let n := lower (strip name) in
      add_food_form d u name k p c f = Some (add_food d u n k p c f)
      /\ n <> EmptyString
      /\ trimmed n
      /\ lower n = n
      /\ strip n = n
      /\ filter (food_key u n) (foods (add_food d u n k p c f))
         = [Foods.mk (foods_seq d + 1) u n k p c f]
      /\ forall name', lower (strip name') = n ->
           add_food_form d u name' k p c f = add_food_form d u name k p c f).
Proof.
  assert (Hform : forall s, strip s <> EmptyString ->
            add_food_form d u s k p c f
            = Some (add_food d u (lower (strip s)) k p c f)).
  { intros s Hs. unfold add_food_form.
    destruct (strip s); [contradiction|reflexivity]. }
  assert (Hne : forall s, lower s = EmptyString -> s = EmptyString).
  { intros s. destruct s; [reflexivity|discriminate]. }
  split.
  - rewrite <- strip_blank. unfold add_food_form.
    destruct (strip name); split; try reflexivity; discriminate.
  - intros Hb n.
    assert (Hs : strip name <> EmptyString).
    { intros H. apply strip_blank in H. congruence. }
    assert (Hn : n <> EmptyString) by (intros H; now apply Hne in H).
    assert (Ht : trimmed n) by apply lower_trimmed, strip_trimmed.
    split; [now apply Hform|]. split; [exact Hn|]. split; [exact Ht|].
    split; [apply lower_idempotent|]. split; [now apply strip_id|].
    split.
    + pose proof (add_food_key d u n k p c f) as H.
      assert (Hl : lower n = n) by apply lower_idempotent.
      now rewrite Hl in H.
    + intros name' Hn'. rewrite (Hform name), Hform.
      * now rewrite Hn'.
      * intros H. rewrite H in Hn'. simpl in Hn'. apply Hn.
        symmetry. exact Hn'.
      * exact Hs.
Qed.

Lemma add_food_form_normalises_witness :
  blank "  Masala Dosa " = false
  /\ add_food_form init_db 1 "  Masala Dosa " 168 3.9 29 3.7
     = Some (add_food init_db 1 "masala dosa" 168 3.9 29 3.7)
  /\ add_food_form init_db 1 "   " 168 3.9 29 3.7 = None.
Proof.
  split; [reflexivity|]. split.
  - destruct (proj2 (add_food_form_normalises init_db 1 "  Masala Dosa "
                       168 3.9 29 3.7) eq_refl) as [H _].
    exact H.
  - apply (proj1 (add_food_form_normalises init_db 1 "   " 168 3.9 29 3.7)).
    reflexivity.
Defined.

(** ** History *)

Lemma seq_from (k n : nat) :
  seq k n = map (fun i => (k + i)%nat) (seq 0 n).
Proof.
  revert k. induction n as [|n IH]; intros k; simpl; [reflexivity|].
  rewrite Nat.add_0_r. f_equal.
  rewrite (IH (S k)), <- (seq_shift n 0), map_map.
  apply map_ext. intros i. lia.
Qed.

Lemma date_range_skipn (start today : date) (k : nat) :
  skipn k (date_range start today) = date_range (start + Z.of_nat k) today.
Proof.
  unfold date_range. rewrite skipn_map, skipn_seq. simpl.
  replace (Z.to_nat (today - (start + Z.of_nat k) + 1))
    with (Z.to_nat (today - start + 1) - k)%nat by lia.
  rewrite seq_from, map_map. apply map_ext. intros i. lia.
Qed.

(** X9. History windows nest: when the window of [N] days lies in the
    range of nanosecond timestamps, both series are returned for
    [1 <= M <= N], and the series over [M] days is the last [M] rows of the
    series over [N] days, so a shorter chart shows the values of the longer
    one. *)
Theorem history_windows_nest (sql_sum : list Q -> Q) (today : date)
    (d : db) (u : Z) (M N : Z) :
  1 <= M <= N ->
  timestamp_min <= today - (N - 1) -> today <= timestamp_max ->
  exists hN,
    get_history sql_sum today d u N = Ok hN
    /\ get_history sql_sum today d u M = Ok (skipn (Z.to_nat (N - M)) hN).
Proof.
  intros H Hmin Hmax. eexists. split.
  - rewrite get_history_rows, history_days_ok by (assumption || lia).
    reflexivity.
  - rewrite get_history_rows, history_days_ok by (assumption || lia).
    rewrite skipn_map, date_range_skipn. do 3 f_equal. lia.
Qed.

Lemma history_windows_nest_witness :
  1 <= 3 <= 7
  /\ exists hN,
       get_history SUM 738000 breakfast_day 1 7 = Ok hN
       /\ get_history SUM 738000 breakfast_day 1 3 = Ok (skipn 4 hN).
Proof.
  split; [lia|].
  apply (history_windows_nest SUM 738000 breakfast_day 1 3 7);
    [lia | unfold timestamp_min; lia | unfold timestamp_max; lia].
Defined.

(** ** Settings *)

Lemma find_snoc {A : Type} (p : A -> bool) (l : list A) (x : A) :
  find p (l ++ [x])
  = match find p l with
    | Some y => Some y
    | None => if p x then Some x else None
    end.
Proof.
  induction l as [|y l IH]; simpl; [reflexivity|].
  destruct (p y); [reflexivity | exact IH].
Qed.



Lemma find_has_settings (u : Z) (l : list Settings.row) (r : Settings.row) :
  find (has_settings u) l = Some r -> In r l /\ Settings.user_id r = u.
Proof.
  intros H. apply find_some in H. destruct H as [Hin Hu].
  split; [exact Hin | now apply Z.eqb_eq].
Qed.

Lemma find_has_settings_None (u : Z) (l : list Settings.row) :
  find (has_settings u) l = None <-> ~ In u (map Settings.user_id l).
Proof.
  split.
  - intros H Hin. apply in_map_iff in Hin. destruct Hin as (r & Hr & Hin).
    pose proof (find_none _ _ H r Hin) as Hf. unfold has_settings in Hf.
    apply Z.eqb_neq in Hf. congruence.
  - intros H. destruct (find (has_settings u) l) as [r|] eqn:E;
      [|reflexivity].
    apply find_has_settings in E. destruct E as [Hin Hu].
    exfalso. apply H. rewrite <- Hu. now apply in_map.
Qed.

(** X12. [get_settings] never fails. For an account without a row it
    writes the defaults (2000 kcal; 25, 35, 30 and 10 per cent) and returns
    them; for an account with a row it returns that row and writes nothing.
    Either way a second call returns the same values and writes nothing,
    and the catalog, the entries, the accounts and the rows of every other
    account are as they were. *)
Theorem get_settings_lazy_defaults (s : store) (u : Z) :
  exists s' dict,
    get_settings s u = Some (s', dict)
    /\ get_settings s' u = Some (s', dict)
    /\ data s' = data s /\ users s' = users s /\ users_seq s' = users_seq s
    /\ (forall v, v <> u ->
          find (has_settings v) (settings s')
          = find (has_settings v) (settings s))
    /\ (find (has_settings u) (settings s) = None ->
        dict = SettingsDict.mk 2000 25 35 30 10
        /\ settings s' = settings s ++ [default_settings u])
    /\ (forall r, find (has_settings u) (settings s) = Some r ->
        dict = settings_dict r /\ s' = s).
Proof.
  unfold get_settings.
  destruct (find (has_settings u) (settings s)) as [r|] eqn:E.
  - exists s, (settings_dict r). rewrite E.
    do 6 (split; [reflexivity|]). split; [discriminate|].
    intros r0 H. inversion H; subst. now split.
  - simpl. unfold insert_or_ignore_settings. rewrite E, find_snoc, E.
    unfold has_settings at 1. simpl. rewrite Z.eqb_refl.
    eexists. eexists. split; [reflexivity|]. simpl.
    rewrite find_snoc, E. unfold has_settings at 1. simpl.
    rewrite Z.eqb_refl. do 4 (split; [reflexivity|]).
    split; [|split; [now split | discriminate]].
    intros v Hv. rewrite find_snoc.
    destruct (find (has_settings v) (settings s)); [reflexivity|].
    unfold has_settings. simpl.
    now replace (u =? v) with false by (symmetry; apply Z.eqb_neq; congruence).
Qed.


(** ** Accounts *)

Lemma find_has_username (n : string) (l : list Users.row) (r : Users.row) :
  find (has_username n) l = Some r -> In r l /\ Users.username r = n.
Proof.
  intros H. apply find_some in H. destruct H as [Hin Hn].
  split; [exact Hin | now apply String.eqb_eq].
Qed.

Lemma find_has_username_None (n : string) (l : list Users.row) :
  find (has_username n) l = None <-> ~ In n (map Users.username l).
Proof.
  split.
  - intros H Hin. apply in_map_iff in Hin. destruct Hin as (r & Hr & Hin).
    pose proof (find_none _ _ H r Hin) as Hf. unfold has_username in Hf.
    apply String.eqb_neq in Hf. congruence.
  - intros H. destruct (find (has_username n) l) as [r|] eqn:E;
      [|reflexivity].
    apply find_has_username in E. destruct E as [Hin Hn].
    exfalso. apply H. rewrite <- Hn. now apply in_map.
Qed.

(** What the "Create account" button leaves behind: the store as it was,
    or the store with one more account. *)
Lemma create_account_cases (hashpw : string -> string -> option string)
    (s : store) (n p salt : string) :
  create_account hashpw s n p salt = Ok (s, None)
  \/ create_account hashpw s n p salt = Ok (s, Some false)
  \/ (n <> EmptyString /\ p <> EmptyString /\ hashpw p salt = None
      /\ create_account hashpw s n p salt = Raise ValueError)
  \/ (exists h,
        n <> EmptyString /\ p <> EmptyString /\ hashpw p salt = Some h
        /\ find (has_username n) (users s) = None
        /\ create_account hashpw s n p salt
           = Ok (mk_store (data s)
                   (users s ++ [Users.mk (users_seq s + 1) n h])
                   (users_seq s + 1)
                   (insert_or_ignore_settings (settings s) (users_seq s + 1)),
                 Some true)).
Proof.
  unfold create_account, create_user, hash_password.
  destruct n as [|a n]; [now left|]. destruct p as [|b p]; [now left|].
  destruct (hashpw (String b p) salt) as [h|] eqn:Eh.
  - destruct (find (has_username (String a n)) (users s)) eqn:E.
    + right. now left.
    + right. right. right. exists h. repeat split; discriminate.
  - right. right. left. repeat split; discriminate.
Qed.

Lemma handler_data_cases (d d' : db) (u : Z) :
  (exists today now fc w m,
     d' = match add_entry today now d u fc w m with
          | Ok x => x
          | Raise _ => d
          end)
  \/ (exists n k p c f,
        d' = match add_food_form d u n k p c f with
             | Some x => x
             | None => d
             end)
  \/ (exists today i, d' = delete_entry today d u i)
  \/ d' = ensure_sample_foods d u ->
  d' = d \/ exists a, actor a = u /\ d' = run a d.
Proof.
  intros [H|[H|[H|H]]].
  - destruct H as (today & now & fc & w & m & H). unfold add_entry in H.
    destruct (filter _ (get_foods d u)) as [|row rest]; [now left|].
    right. unfold calc_from_food_row in H. simpl in H.
    eexists (LogFood u today now fc w _ _ _ _ m). split; [reflexivity|].
    exact H.
  - destruct H as (n & k & p & c & f & H). unfold add_food_form in H.
    destruct (strip n) eqn:E; [now left|]. right.
    eexists (AddFood u _ k p c f). split; [reflexivity | exact H].
  - destruct H as (today & i & H). unfold delete_entry in H.
    destruct (get_logs_for_date d u today); [now left|].
    destruct (0 <? i); [|now left]. right.
    exists (DeleteLog u i). now split.
  - unfold ensure_sample_foods in H.
    destruct (get_foods d u); [|now left]. right.
    exists (SeedFoods u). now split.
Qed.

Lemma add_food_owner (P : Z -> Prop) (d : db) (u : Z) (n : string)
    (k p c f : Q) :
  P u -> Forall (fun r => P (Foods.user_id r)) (foods d) ->
  Forall (fun r => P (Foods.user_id r)) (foods (add_food d u n k p c f)).
Proof.
  intros Hu H. unfold add_food. simpl. apply Forall_app. split.
  - apply Forall_forall. intros r Hr. apply filter_In in Hr.
    rewrite Forall_forall in H. now apply H.
  - now repeat constructor.
Qed.

Lemma run_owner (P : Z -> Prop) (a : action) (d : db) :
  P (actor a) ->
  Forall (fun r => P (Foods.user_id r)) (foods d)
  /\ Forall (fun e => P (Logs.user_id e)) (logs d) ->
  Forall (fun r => P (Foods.user_id r)) (foods (run a d))
  /\ Forall (fun e => P (Logs.user_id e)) (logs (run a d)).
Proof.
  intros Ha [Hf Hl].
  destruct a as [u n k p c f|u|u e t fd w k p c f m|u i];
    cbn [run actor] in *.
  - split; [now apply add_food_owner | exact Hl].
  - split; [|exact Hl]. unfold seed_example_foods_for_user.
    generalize sample as l. intros l. revert d Hf Hl.
    induction l as [|[[[[n k] p] c] f] l IH]; simpl; intros d Hf Hl;
      [exact Hf|].
    apply IH; [now apply add_food_owner | exact Hl].
  - split; [exact Hf|]. apply Forall_app. split; [exact Hl|].
    now repeat constructor.
  - split; [exact Hf|]. apply Forall_forall. intros e He.
    apply filter_In in He. rewrite Forall_forall in Hl. now apply Hl.
Qed.

Lemma app_invariant_data (s : store) (u : Z) (d' : db) :
  app_invariant s -> registered s u ->
  d' = data s \/ (exists a, actor a = u /\ d' = run a (data s)) ->
  app_invariant (with_data (fun _ => d') s).
Proof.
  intros (Hu & Hs & Ho & Hr) Hreg [Hd|(a & Ha & Hd)]; subst d'.
  - destruct s; exact (conj Hu (conj Hs (conj Ho Hr))).
  - split; [exact Hu|]. split; [exact Hs|]. split.
    + apply (run_owner (registered s) a (data s)); [now rewrite Ha|exact Ho].
    + now constructor.
Qed.

Lemma app_invariant_new_user (s : store) (n h : string) :
  app_invariant s ->
  n <> EmptyString -> find (has_username n) (users s) = None ->
  app_invariant
    (mk_store (data s) (users s ++ [Users.mk (users_seq s + 1) n h])
       (users_seq s + 1)
       (insert_or_ignore_settings (settings s) (users_seq s + 1))).
Proof.
  intros ((Hseq & Hasc & Hids & Hnames & Hne) & (Hsnd & Hsreg) & (Hof & Hol)
          & Hr) Hn Hfind.
  assert (Hfresh : ~ registered s (users_seq s + 1)).
  { intros Hin. apply in_map_iff in Hin. destruct Hin as (r & Hr' & Hin).
    rewrite Forall_forall in Hids. specialize (Hids r Hin). lia. }
  assert (Hnone : find (has_settings (users_seq s + 1)) (settings s) = None).
  { apply find_has_settings_None. now rewrite <- Hsreg. }
  unfold insert_or_ignore_settings. rewrite Hnone.
  assert (Hreg : forall u, registered s u ->
            In u (map Users.id
                    (users s ++ [Users.mk (users_seq s + 1) n h]))).
  { intros u Hu. rewrite map_app. apply in_or_app. now left. }
  split; [|split; [|split]].
  - unfold users_wf. simpl. split; [lia|]. split; [|split; [|split]].
    + clear - Hasc Hids. induction Hasc as [|x l Hs IH Hx]; simpl.
      * repeat constructor.
      * inversion Hids as [|? ? Hx1 Hl1]; subst.
        constructor; [now apply IH|]. apply Forall_app. split; [exact Hx|].
        constructor; [simpl; lia | constructor].
    + apply Forall_app. split.
      * eapply Forall_impl; [|exact Hids]. simpl. intros r Hr'. lia.
      * constructor; [simpl; lia | constructor].
    + rewrite map_app. simpl.
      eapply Permutation_NoDup; [apply Permutation_cons_append|].
      constructor; [|exact Hnames]. now apply find_has_username_None.
    + apply Forall_app. split; [exact Hne|]. now repeat constructor.
  - unfold settings_wf, registered. simpl. split.
    + rewrite map_app. simpl.
      eapply Permutation_NoDup; [apply Permutation_cons_append|].
      constructor; [|exact Hsnd]. now rewrite <- Hsreg.
    + intros u. rewrite !map_app, !in_app_iff. simpl.
      fold (registered s u). now rewrite Hsreg.
  - unfold data_owned. simpl. split.
    + eapply Forall_impl; [|exact Hof]. intros r. apply Hreg.
    + eapply Forall_impl; [|exact Hol]. intros r. apply Hreg.
  - exact Hr.
Qed.

Lemma app_invariant_save (s : store) (u : Z) (g b l dn sn : Q) :
  app_invariant s -> registered s u ->
  app_invariant (update_settings s u g b l dn sn).
Proof.
  intros (Hu & (Hsnd & Hsreg) & Ho & Hr) Hreg.
  split; [exact Hu|]. split; [|split; [exact Ho | exact Hr]].
  unfold settings_wf, update_settings, registered. simpl. split.
  - rewrite map_app. simpl.
    eapply Permutation_NoDup; [apply Permutation_cons_append|].
    constructor.
    + intros Hin. apply in_map_iff in Hin. destruct Hin as (r & Hr' & Hin).
      apply filter_In in Hin. destruct Hin as [_ Hin].
      unfold has_settings in Hin. apply negb_true_iff, Z.eqb_neq in Hin.
      congruence.
    + clear - Hsnd. induction (settings s) as [|r rs IH]; simpl;
        [constructor|].
      inversion Hsnd as [|? ? Hx Hnd]; subst.
      destruct (negb (has_settings u r)); simpl; [|now apply IH].
      constructor; [|now apply IH]. intros Hin. apply Hx.
      apply in_map_iff in Hin. destruct Hin as (r' & Hr' & Hin).
      apply filter_In in Hin. rewrite <- Hr'. apply in_map. tauto.
  - intros v. fold (registered s v). rewrite Hsreg, map_app, in_app_iff.
    simpl. split.
    + intros Hin. destruct (Z.eq_dec u v) as [He|Hne]; [right; now left|].
      left. apply in_map_iff in Hin. destruct Hin as (r & Hr' & Hin).
      apply in_map_iff. exists r. split; [exact Hr'|].
      apply filter_In. split; [exact Hin|]. unfold has_settings.
      apply negb_true_iff, Z.eqb_neq. congruence.
    + intros [Hin|[He|[]]].
      * apply in_map_iff in Hin. destruct Hin as (r & Hr' & Hin).
        apply filter_In in Hin. rewrite <- Hr'. apply in_map. tauto.
      * subst v. now apply Hsreg.
Qed.

Lemma get_settings_present (s : store) (u : Z) :
  In u (map Settings.user_id (settings s)) ->
  exists r, find (has_settings u) (settings s) = Some r
            /\ get_settings s u = Some (s, settings_dict r).
Proof.
  intros Hin. unfold get_settings.
  destruct (find (has_settings u) (settings s)) as [r|] eqn:E.
  - now exists r.
  - apply find_has_settings_None in E. contradiction.
Qed.

(** Every state the application reaches satisfies the constraints. *)
Lemma app_reachable_invariant (hashpw : string -> string -> option string)
    (s : store) :
  app_reachable hashpw s -> app_invariant s.
Proof.
  induction 1 as [|s n p salt _ IH|s u _ IH Hreg
                  |s u today now fc w m _ IH Hreg
                  |s u n k p c f _ IH Hreg
                  |s u today i _ IH Hreg
                  |s u g b l dn sn _ IH Hreg].
  - split; [|split; [|split]].
    + unfold users_wf. simpl. repeat split; try constructor. lia.
    + unfold settings_wf, registered. simpl. split; [constructor|tauto].
    + split; constructor.
    + constructor.
  - unfold after_create_account.
    destruct (create_account_cases hashpw s n p salt) as [E|[E|[E|E]]].
    + now rewrite E.
    + now rewrite E.
    + destruct E as (_ & _ & _ & E). now rewrite E.
    + destruct E as (h & Hn & _ & _ & Hf & E). rewrite E.
      now apply app_invariant_new_user.
  - unfold open_page.
    set (s1 := with_data (fun d => ensure_sample_foods d u) s).
    assert (H1 : app_invariant s1).
    { apply (app_invariant_data s u); [exact IH | exact Hreg|].
      apply (handler_data_cases (data s)). now repeat right. }
    destruct H1 as (Hu & (Hsnd & Hsreg) & Ho & Hr).
    assert (Hin : In u (map Settings.user_id (settings s1)))
      by now apply Hsreg.
    destruct (get_settings_present s1 u Hin) as (r & _ & Hg).
    rewrite Hg. exact (conj Hu (conj (conj Hsnd Hsreg) (conj Ho Hr))).
  - apply (app_invariant_data s u); [exact IH | exact Hreg|].
    apply (handler_data_cases (data s)). left.
    now exists today, now, fc, w, m.
  - apply (app_invariant_data s u); [exact IH | exact Hreg|].
    apply (handler_data_cases (data s)). right. left.
    now exists n, k, p, c, f.
  - apply (app_invariant_data s u); [exact IH | exact Hreg|].
    apply (handler_data_cases (data s)). right. right. left.
    now exists today, i.
  - now apply app_invariant_save.
Qed.

Lemma create_account_fresh (hashpw : string -> string -> option string)
    (s : store) (n p salt h : string) :
  n <> EmptyString -> p <> EmptyString ->
  ~ In n (map Users.username (users s)) ->
  hashpw p salt = Some h ->
  create_account hashpw s n p salt
  = Ok (mk_store (data s)
          (users s ++ [Users.mk (users_seq s + 1) n h])
          (users_seq s + 1)
          (insert_or_ignore_settings (settings s) (users_seq s + 1)),
        Some true).
Proof.
  intros Hn Hp Hf Hh. apply find_has_username_None in Hf.
  unfold create_account, create_user, hash_password.
  destruct n; [contradiction|]. destruct p; [contradiction|].
  now rewrite Hh, Hf.
Qed.

Lemma create_account_refused (hashpw : string -> string -> option string)
    (s : store) (n p salt : string) :
  n <> EmptyString -> p <> EmptyString ->
  hashpw p salt = None ->
  create_account hashpw s n p salt = Raise ValueError.
Proof.
  intros Hn Hp Hh. unfold create_account, create_user, hash_password.
  destruct n; [contradiction|]. destruct p; [contradiction|].
  now rewrite Hh.
Qed.

(** Logging in under the username of the account that was just added. *)
Lemma login_new_account (checkpw : string -> string -> option bool)
    (s : store) (n p h : string) (sett : list Settings.row) :
  ~ In n (map Users.username (users s)) -> 0 <= users_seq s ->
  login checkpw
    (mk_store (data s) (users s ++ [Users.mk (users_seq s + 1) n h])
       (users_seq s + 1) sett) n p
  = if check_password checkpw p h then Some (users_seq s + 1) else None.
Proof.
  intros Hf Hseq. apply find_has_username_None in Hf.
  unfold login, authenticate. simpl.
  rewrite find_snoc, Hf. unfold has_username at 1. simpl.
  rewrite String.eqb_refl. simpl.
  destruct (check_password checkpw p h); [|reflexivity].
  now replace (users_seq s + 1 =? 0) with false
    by (symmetry; apply Z.eqb_neq; lia).
Qed.

(** X14. In a reachable state, take a non-empty username that is not taken
    and a non-empty password. When bcrypt hashes the password, the account
    is created and gets the next identifier, nobody else's login is
    affected, and the catalog and the entries are untouched; logging in
    with that username and password then binds the session to the new
    account exactly when bcrypt accepts the password against that hash.
    When bcrypt refuses the password, [ValueError] leaves the handler and
    there is no account. *)
Theorem create_account_then_login
    (hashpw : string -> string -> option string)
    (checkpw : string -> string -> option bool)
    (s : store) (n p salt : string) :
  app_reachable hashpw s ->
  n <> EmptyString -> p <> EmptyString ->
  ~ In n (map Users.username (users s)) ->
  (forall h, hashpw p salt = Some h ->
     exists s',
       create_account hashpw s n p salt = Ok (s', Some true)
       /\ (checkpw p h = Some true ->
           login checkpw s' n p = Some (users_seq s + 1))
       /\ (checkpw p h <> Some true -> login checkpw s' n p = None)
       /\ registered s' (users_seq s + 1)
       /\ (forall n' p', n' <> n ->
             login checkpw s' n' p' = login checkpw s n' p')
       /\ data s' = data s)
  /\ (hashpw p salt = None ->
      create_account hashpw s n p salt = Raise ValueError
      /\ after_create_account hashpw s n p salt = s).
Proof.
  intros Hr Hn Hp Hf.
  destruct (app_reachable_invariant hashpw s Hr) as ((Hseq & _) & _).
  split.
  - intros h Hh. eexists. split;
      [exact (create_account_fresh hashpw s n p salt h Hn Hp Hf Hh)|].
    split; [|split; [|split; [|split; [|reflexivity]]]].
    + intros Hc. rewrite login_new_account by assumption.
      unfold check_password. now rewrite Hc.
    + intros Hc. rewrite login_new_account by assumption.
      unfold check_password.
      destruct (checkpw p h) as [[|]|]; congruence.
    + unfold registered. simpl. rewrite map_app. apply in_or_app.
      right. now left.
    + intros n' p' Hn'. unfold login, authenticate. simpl.
      rewrite find_snoc.
      destruct (find (has_username n') (users s)); [reflexivity|].
      unfold has_username. simpl.
      now replace (n =? n')%string with false
        by (symmetry; apply String.eqb_neq; congruence).
  - intros Hh. unfold after_create_account.
    now rewrite (create_account_refused hashpw s n p salt Hn Hp Hh).
Qed.

Lemma create_account_then_login_witness :
  login plain_checkpw asha_store "asha" "s3cret" = Some 1
  /\ create_account plain_hashpw init_store "asha" long_password "salt"
     = Raise ValueError.
Proof.
  destruct (create_account_then_login plain_hashpw plain_checkpw init_store
              "asha" "s3cret" "salt" (app_init plain_hashpw))
    as [H _]; [discriminate | discriminate | simpl; tauto |].
  destruct (H "s3cret"%string eq_refl) as (s' & Hs' & Hl & _).
  split.
  - unfold asha_store, after_create_account. rewrite Hs'.
    now apply Hl.
  - reflexivity.
Defined.

(** X15. The outcomes of the "Create account" button. It succeeds exactly
    when the username and the password are not empty, the username,
    compared letter for letter, is not taken, and bcrypt hashes the
    password; the store then has one more account and one more row of
    settings. It raises exactly when both fields are filled and bcrypt
    refuses the password, taken or free username alike, and the exception
    is [ValueError]. In every outcome but success nothing at all is
    written: with an empty field [create_user] is not even called, and a
    taken username makes it answer false. *)
Theorem create_account_outcomes
    (hashpw : string -> string -> option string)
    (s : store) (n p salt : string) :
  (forall s',
     create_account hashpw s n p salt = Ok (s', Some true) <->
     n <> EmptyString /\ p <> EmptyString
     /\ ~ In n (map Users.username (users s))
     /\ exists h,
          hashpw p salt = Some h
          /\ s' = mk_store (data s)
                    (users s ++ [Users.mk (users_seq s + 1) n h])
                    (users_seq s + 1)
                    (insert_or_ignore_settings (settings s)
                       (users_seq s + 1)))
  /\ (forall e,
        create_account hashpw s n p salt = Raise e <->
        n <> EmptyString /\ p <> EmptyString /\ hashpw p salt = None
        /\ e = ValueError)
  /\ (forall s' ans,
        create_account hashpw s n p salt = Ok (s', ans) ->
        ans <> Some true -> s' = s)
  /\ after_create_account hashpw s n p salt
     = match create_account hashpw s n p salt with
       | Ok (s', Some true) => s'
       | _ => s
       end
  /\ (n = EmptyString \/ p = EmptyString ->
      create_account hashpw s n p salt = Ok (s, None))
  /\ (In n (map Users.username (users s)) ->
      forall h, hashpw p salt = Some h ->
      create_user hashpw s n p salt = Ok (s, false)).
Proof.
  split; [|split; [|split; [|split; [|split]]]].
  - intros s'. split.
    + intros H.
      destruct (create_account_cases hashpw s n p salt) as [E|[E|[E|E]]];
        try (rewrite E in H; discriminate).
      * destruct E as (_ & _ & _ & E). rewrite E in H. discriminate.
      * destruct E as (h & Hn & Hp & Hh & Hf & E).
        rewrite E in H. inversion H; subst s'.
        apply find_has_username_None in Hf.
        repeat split; try assumption. now exists h.
    + intros (Hn & Hp & Hf & h & Hh & Hs). subst s'.
      now apply create_account_fresh.
  - intros e. split.
    + intros H.
      destruct (create_account_cases hashpw s n p salt) as [E|[E|[E|E]]];
        try (rewrite E in H; discriminate).
      * destruct E as (Hn & Hp & Hh & E). rewrite E in H.
        inversion H. now repeat split.
      * destruct E as (h & _ & _ & _ & _ & E). rewrite E in H.
        discriminate.
    + intros (Hn & Hp & Hh & He). subst e.
      now apply create_account_refused.
  - intros s' ans H Hans.
    destruct (create_account_cases hashpw s n p salt) as [E|[E|[E|E]]].
    + rewrite E in H. now inversion H.
    + rewrite E in H. now inversion H.
    + destruct E as (_ & _ & _ & E). rewrite E in H. discriminate.
    + destruct E as (h & _ & _ & _ & _ & E). rewrite E in H.
      inversion H; subst. now contradiction Hans.
  - unfold after_create_account.
    destruct (create_account_cases hashpw s n p salt) as [E|[E|[E|E]]].
    + now rewrite E.
    + now rewrite E.
    + destruct E as (_ & _ & _ & E). now rewrite E.
    + destruct E as (h & _ & _ & _ & _ & E). now rewrite E.
  - unfold create_account. intros [H|H]; subst; [reflexivity|].
    now destruct n.
  - intros Hin h Hh. unfold create_user, hash_password. rewrite Hh.
    destruct (find (has_username n) (users s)) eqn:E; [reflexivity|].
    apply find_has_username_None in E. contradiction.
Qed.

Lemma create_account_outcomes_witness :
  create_account plain_hashpw asha_store "asha" "other" "pepper"
  = Ok (asha_store, Some false)
  /\ create_account plain_hashpw asha_store "asha" long_password "pepper"
     = Raise ValueError
  /\ create_account plain_hashpw init_store "" "s3cret" "salt"
     = Ok (init_store, None).
Proof.
  split; [reflexivity|]. split; [reflexivity|].
  apply (create_account_outcomes plain_hashpw init_store "" "s3cret" "salt").
  now left.
Defined.

(** X16. In a reachable state the "Login" button binds the session to an
    account exactly when an account of that username exists and bcrypt
    accepts the password against its stored hash; the session is then bound
    to that account's identifier, which is at least 1. An unknown username,
    a rejected password and a check that raises all leave the session
    unbound. *)
Theorem login_sound_and_complete
    (hashpw : string -> string -> option string)
    (checkpw : string -> string -> option bool)
    (s : store) (n p : string) (uid : Z) :
  app_reachable hashpw s ->
  (login checkpw s n p = Some uid <->
   exists r, In r (users s) /\ Users.username r = n /\ Users.id r = uid
             /\ checkpw p (Users.password_hash r) = Some true)
  /\ (login checkpw s n p = Some uid -> 1 <= uid /\ registered s uid)
  /\ (~ In n (map Users.username (users s)) -> login checkpw s n p = None)
  /\ (forall r, In r (users s) -> Users.username r = n ->
        checkpw p (Users.password_hash r) <> Some true ->
        login checkpw s n p = None).
Proof.
  intros Hr.
  destruct (app_reachable_invariant hashpw s Hr)
    as ((_ & _ & Hids & Hnames & _) & _).
  rewrite Forall_forall in Hids.
  assert (Hrow : forall r, In r (users s) -> Users.username r = n ->
            login checkpw s n p
            = if check_password checkpw p (Users.password_hash r)
              then Some (Users.id r) else None).
  { intros r Hin Hn. unfold login, authenticate.
    destruct (find (has_username n) (users s)) as [r'|] eqn:E.
    - apply find_has_username in E. destruct E as [Hin' Hn'].
      assert (r' = r).
      { apply (NoDup_map_injective_on Users.username (users s));
          congruence. }
      subst r'. destruct (check_password checkpw p (Users.password_hash r));
        [|reflexivity].
      specialize (Hids r Hin).
      now replace (Users.id r =? 0) with false
        by (symmetry; apply Z.eqb_neq; lia).
    - apply find_has_username_None in E. exfalso. apply E.
      rewrite <- Hn. now apply in_map. }
  assert (Hnone : ~ In n (map Users.username (users s)) ->
            login checkpw s n p = None).
  { intros Hf. apply find_has_username_None in Hf.
    unfold login, authenticate. now rewrite Hf. }
  assert (Hiff : login checkpw s n p = Some uid <->
            exists r, In r (users s) /\ Users.username r = n
                      /\ Users.id r = uid
                      /\ checkpw p (Users.password_hash r) = Some true).
  { split.
    - intros H.
      destruct (in_dec string_dec n (map Users.username (users s)))
        as [Hin|Hnin]; [|rewrite (Hnone Hnin) in H; discriminate].
      apply in_map_iff in Hin. destruct Hin as (r & Hn & Hin).
      rewrite (Hrow r Hin Hn) in H. unfold check_password in H.
      exists r. destruct (checkpw p (Users.password_hash r)) as [[|]|];
        try discriminate.
      inversion H. auto.
    - intros (r & Hin & Hn & Hid & Hc). rewrite (Hrow r Hin Hn).
      unfold check_password. rewrite Hc. now subst. }
  split; [exact Hiff|]. split; [|split; [exact Hnone|]].
  - intros H. apply Hiff in H. destruct H as (r & Hin & _ & Hid & _).
    subst uid. split; [apply (Hids r Hin)|]. now apply in_map.
  - intros r Hin Hn Hc. rewrite (Hrow r Hin Hn). unfold check_password.
    destruct (checkpw p (Users.password_hash r)) as [[|]|]; congruence.
Qed.

Lemma login_sound_and_complete_witness :
  login plain_checkpw asha_store "asha" "wrong" = None.
Proof.
  destruct (login_sound_and_complete plain_hashpw plain_checkpw
              asha_store "asha" "wrong" 1
              (app_create_account plain_hashpw init_store "asha" "s3cret"
                 "salt" (app_init plain_hashpw)))
    as (_ & _ & _ & H).
  apply (H (Users.mk 1 "asha" "s3cret")).
  - left. reflexivity.
  - reflexivity.
  - discriminate.
Defined.

Lemma ascending_user_ids_NoDup (l : list Users.row) :
  StronglySorted (fun a b => Users.id a < Users.id b) l ->
  NoDup (map Users.id l).
Proof.
  induction 1 as [|x l Hs IH Hx]; simpl; constructor; [|exact IH].
  intros Hin. apply in_map_iff in Hin. destruct Hin as (y & Hy & Hin).
  rewrite Forall_forall in Hx. specialize (Hx y Hin). lia.
Qed.

Lemma settings_row_unique (u : Z) (l : list Settings.row) :
  NoDup (map Settings.user_id l) ->
  In u (map Settings.user_id l) ->
  exists r, filter (has_settings u) l = [r]
            /\ find (has_settings u) l = Some r.
Proof.
  induction l as [|x l IH]; simpl; intros Hnd Hin; [contradiction|].
  inversion Hnd as [|? ? Hx Hnd']; subst.
  destruct (has_settings u x) eqn:E; unfold has_settings in E.
  - apply Z.eqb_eq in E. exists x. split; [|reflexivity]. f_equal.
    apply filter_none. intros y Hy. unfold has_settings. apply Z.eqb_neq.
    intros Hyu. apply Hx. rewrite E, <- Hyu. now apply in_map.
  - apply Z.eqb_neq in E. destruct Hin as [Hin|Hin]; [contradiction|].
    now apply IH.
Qed.

(** X17. In every state the application reaches: usernames are distinct
    and not empty; identifiers of accounts are distinct, at least 1 and at
    most the counter; every account has exactly one row of settings, so
    reading its settings writes nothing; no row of settings, no food and no
    entry belongs to an account that does not exist. *)
Theorem accounts_invariant (hashpw : string -> string -> option string)
    (s : store) :
  app_reachable hashpw s ->
  NoDup (map Users.username (users s))
  /\ NoDup (map Users.id (users s))
  /\ Forall (fun r => Users.username r <> EmptyString
                      /\ 1 <= Users.id r <= users_seq s) (users s)
  /\ (forall u, registered s u ->
        exists r, filter (has_settings u) (settings s) = [r]
                  /\ get_settings s u = Some (s, settings_dict r))
  /\ (forall r, In r (settings s) -> registered s (Settings.user_id r))
  /\ Forall (fun r => registered s (Foods.user_id r)) (foods (data s))
  /\ Forall (fun e => registered s (Logs.user_id e)) (logs (data s)).
Proof.
  intros Hr.
  destruct (app_reachable_invariant hashpw s Hr)
    as ((_ & Hasc & Hids & Hnames & Hne) & (Hsnd & Hsreg) & (Hof & Hol) & _).
  split; [exact Hnames|]. split; [now apply ascending_user_ids_NoDup|].
  split; [|split; [|split; [|split; [exact Hof | exact Hol]]]].
  - rewrite Forall_forall in *. intros r Hin. split; [now apply Hne|].
    now apply Hids.
  - intros u Hu. apply Hsreg in Hu.
    destruct (settings_row_unique u (settings s) Hsnd Hu) as (r & Hf & Hfind).
    exists r. split; [exact Hf|]. unfold get_settings. now rewrite Hfind.
  - intros r Hin. apply Hsreg. now apply in_map.
Qed.

Lemma accounts_invariant_witness :
  NoDup (map Users.username
           (users (after_create_account plain_hashpw asha_store
                     "ravi" "pw" "salt"))).
Proof.
  apply (accounts_invariant plain_hashpw).
  apply app_create_account, app_create_account, app_init.
Defined.

Lemma no_rows_of_unregistered (s : store) (u : Z) :
  data_owned s -> ~ registered s u ->
  filter (of_user u) (foods (data s)) = []
  /\ forall day, entries_on (data s) u day = [].
Proof.
  intros [Hof Hol] Hu. rewrite Forall_forall in Hof, Hol. split.
  - apply filter_none. intros r Hin. unfold of_user. apply Z.eqb_neq.
    intros He. apply Hu. rewrite <- He. now apply Hof.
  - intros day. unfold entries_on. apply filter_none. intros e Hin.
    apply andb_false_iff. left. apply Z.eqb_neq.
    intros He. apply Hu. rewrite <- He. now apply Hol.
Qed.

(** X18. A new account starts clean. In a reachable state, when an
    account is created under a free username with a password that bcrypt
    hashes, the first page it opens succeeds and shows exactly the ten
    default foods in order of name and the default settings; the account
    has no entry on any day; its history is all zero over every window that
    lies in the range of nanosecond timestamps, and [OverflowError] for a
    window longer than the ordinal of today. *)
Theorem fresh_account_first_page
    (hashpw : string -> string -> option string)
    (sql_sum : list Q -> Q)
    (s : store) (n p salt h : string) :
  app_reachable hashpw s ->
  n <> EmptyString -> p <> EmptyString ->
  ~ In n (map Users.username (users s)) ->
  hashpw p salt = Some h ->
  let u := users_seq s + 1 in
  exists s1 s2,
    create_account hashpw s n p salt = Ok (s1, Some true)
    /\ open_page s1 u
       = Some (s2, sample_listing, SettingsDict.mk 2000 25 35 30 10)
    /\ (forall day, get_logs_for_date (data s2) u day = [])
    /\ (forall today days,
          1 <= days -> timestamp_min <= today - (days - 1) ->
          today <= timestamp_max ->
          get_history sql_sum today (data s2) u days
          = Ok (map (fun k => HistoryDF.mk k 0 0 0 0)
                  (date_range (today - (days - 1)) today)))
    /\ (forall today days,
          today < days ->
          get_history sql_sum today (data s2) u days = Raise OverflowError)
    /\ users s2 = users s1 /\ settings s2 = settings s1.
Proof.
  intros Hr Hn Hp Hf Hh u.
  destruct (app_reachable_invariant hashpw s Hr)
    as ((_ & _ & Hids & _) & (Hsnd & Hsreg) & Ho & Hreach).
  assert (Hfresh : ~ registered s u).
  { intros Hin. apply in_map_iff in Hin. destruct Hin as (r & Hr' & Hin).
    rewrite Forall_forall in Hids. specialize (Hids r Hin).
    unfold u in Hr'. lia. }
  destruct (no_rows_of_unregistered s u Ho Hfresh) as [Hfoods Hlogs].
  assert (Hnone : find (has_settings u) (settings s) = None).
  { apply find_has_settings_None. now rewrite <- Hsreg. }
  set (s1 := mk_store (data s) (users s ++ [Users.mk u n h]) u
               (settings s ++ [default_settings u])).
  assert (Hs1 : create_account hashpw s n p salt = Ok (s1, Some true)).
  { rewrite (create_account_fresh hashpw s n p salt h) by assumption.
    unfold insert_or_ignore_settings. fold u. now rewrite Hnone. }
  assert (Hseed : ensure_sample_foods (data s) u
                  = seed_example_foods_for_user (data s) u).
  { unfold ensure_sample_foods. rewrite get_foods_unfold, Hfoods.
    reflexivity. }
  set (sa := with_data (fun d => ensure_sample_foods d u) s1).
  assert (Hsa : sa = mk_store (seed_example_foods_for_user (data s) u)
                       (users s ++ [Users.mk u n h]) u
                       (settings s ++ [default_settings u])).
  { unfold sa, with_data, s1.
    cbn [data users users_seq settings]. now rewrite Hseed. }
  assert (Hget : get_settings sa u
                 = Some (sa, SettingsDict.mk 2000 25 35 30 10)).
  { unfold get_settings. rewrite Hsa. cbn [settings].
    rewrite find_snoc, Hnone. unfold has_settings, default_settings.
    cbn [Settings.user_id]. now rewrite Z.eqb_refl. }
  exists s1, sa. split; [exact Hs1|]. unfold open_page. fold sa.
  rewrite Hget.
  assert (Hdata : data sa = seed_example_foods_for_user (data s) u)
    by now rewrite Hsa.
  rewrite Hdata, (seed_listing _ _ Hfoods).
  assert (Hhist : forall today days,
            get_history sql_sum today
              (seed_example_foods_for_user (data s) u) u days
            = match history_days today days with
              | Ok idx => Ok (map (fun k => HistoryDF.mk k 0 0 0 0) idx)
              | Raise e => Raise e
              end).
  { intros today days. rewrite get_history_rows.
    destruct (history_days today days) as [idx|e]; [|reflexivity].
    f_equal. apply map_ext. intros k. apply day_row_empty. apply (Hlogs k). }
  split; [reflexivity|].
  split; [|split; [|split; [|split; now rewrite Hsa]]].
  - intros day. unfold get_logs_for_date.
    change (logs (seed_example_foods_for_user (data s) u))
      with (logs (data s)).
    now rewrite (Hlogs day : filter _ _ = []).
  - intros today days Hd Hmin Hmax.
    now rewrite Hhist, history_days_ok.
  - intros today days Hd.
    now rewrite Hhist, history_days_overflow.
Qed.

Lemma fresh_account_first_page_witness :
  exists s2,
    open_page asha_store 1
    = Some (s2, sample_listing, SettingsDict.mk 2000 25 35 30 10)
    /\ get_history SUM 738000 (data s2) 1 2
       = Ok [HistoryDF.mk 737999 0 0 0 0; HistoryDF.mk 738000 0 0 0 0].
Proof.
  destruct (fresh_account_first_page plain_hashpw SUM init_store
              "asha" "s3cret" "salt" "s3cret" (app_init plain_hashpw))
    as (s1 & s2 & Hc & Ho & _ & Hh & _).
  - discriminate.
  - discriminate.
  - simpl. tauto.
  - reflexivity.
  - exists s2. split.
    + unfold asha_store, after_create_account. rewrite Hc. exact Ho.
    + rewrite Hh by (unfold timestamp_min, timestamp_max; lia).
      reflexivity.
Defined.
